(** * A model of [crypto_bot_render.py]

    The Telegram price-tracker bot is embedded as a state machine: the
    module-level dictionary [user_data], the job store of the APScheduler
    instance [scheduler], the per-user FSM storage of the dispatcher and the
    file [user_data.json] make up the state; every handler of the source is
    a function from a state to an outcome (new state, emitted events and the
    exception that escaped the handler, if one did).  The HTTP price fetch
    and the clock are inputs supplied by an environment record.

    Outside the model: the times at which the scheduler fires a job (a
    timer is live while its job is in the job store) and failures of the
    Telegram API when a message is sent.  The keyboards are modelled on
    their own; the events do not carry them. *)

From stdpp Require Import gmap strings list fin_maps pretty.
From Stdlib Require Import Ascii String ZArith.

Open Scope string_scope.
Open Scope Z_scope.

(** ** Python string operations used by the handlers

    Message texts and callback data are modelled as byte strings; the
    operations below follow Python's [str] methods on the ASCII range. *)
Module PyStr.

Definition nl : string := String "010"%char "".

(** [str.isspace] on ASCII: tab, LF, VT, FF, CR, FS, GS, RS, US, space. *)
Definition is_space (c : ascii) : bool :=
  let n := nat_of_ascii c in
  ((9 <=? n)%nat && (n <=? 13)%nat) || ((28 <=? n)%nat && (n <=? 32)%nat).

Definition lower_char (c : ascii) : ascii :=
  let n := nat_of_ascii c in
  if ((65 <=? n)%nat && (n <=? 90)%nat) then ascii_of_nat (n + 32) else c.

(** [s.lower()] *)
Fixpoint lower (s : string) : string :=
  match s with
  | "" => ""
  | String c s' => String (lower_char c) (lower s')
  end.

(** [s.startswith(p)] *)
Definition startswith (p s : string) : bool := String.prefix p s.

(** [p in s] *)
Fixpoint contains (p s : string) : bool :=
  String.prefix p s ||
  match s with
  | "" => false
  | String _ s' => contains p s'
  end.

Fixpoint rev_acc (s acc : string) : string :=
  match s with
  | "" => acc
  | String c s' => rev_acc s' (String c acc)
  end.

Definition rev (s : string) : string := rev_acc s "".

(** [s.split(sep)] for a non-empty separator: [cur] is the piece being
    read (reversed), [skip] the characters of a matched separator still to
    be dropped. *)
Fixpoint split_go (sep : string) (skip : nat) (cur s : string) : list string :=
  match s with
  | "" => [rev cur]
  | String c s' =>
      match skip with
      | S k => split_go sep k cur s'
      | O =>
          if String.prefix sep s
          then rev cur :: split_go sep (String.length sep - 1) "" s'
          else split_go sep 0 (String c cur) s'
      end
  end.

Definition split (sep s : string) : list string := split_go sep 0 "" s.

(** [s.split()]: pieces between runs of whitespace, none of them empty. *)
Fixpoint split_ws_go (cur s : string) : list string :=
  match s with
  | "" => match cur with "" => [] | _ => [rev cur] end
  | String c s' =>
      if is_space c
      then match cur with
           | "" => split_ws_go "" s'
           | _ => rev cur :: split_ws_go "" s'
           end
      else split_ws_go (String c cur) s'
  end.

Definition split_ws (s : string) : list string := split_ws_go "" s.

Fixpoint lstrip (s : string) : string :=
  match s with
  | String c s' => if is_space c then lstrip s' else s
  | "" => ""
  end.

(** [s.strip()] *)
Definition strip (s : string) : string := rev (lstrip (rev (lstrip s))).

Definition digit_of (c : ascii) : option Z :=
  let n := nat_of_ascii c in
  if ((48 <=? n)%nat && (n <=? 57)%nat) then Some (Z.of_nat (n - 48)) else None.

(** Digits of a decimal literal; single underscores may separate digits
    (PEP 515).  [prev_digit] tells whether the previous character was a
    digit, [acc] is the value read so far. *)
Fixpoint digits_go (prev_digit : bool) (acc : Z) (s : string) : option Z :=
  match s with
  | "" => if prev_digit then Some acc else None
  | String c s' =>
      match digit_of c with
      | Some d => digits_go true (10 * acc + d) s'
      | None =>
          if (Ascii.eqb c "_"%char && prev_digit)%bool
          then digits_go false acc s'
          else None
      end
  end.

(** [int(s)]: [None] stands for the [ValueError] Python raises. *)
Definition py_int (s : string) : option Z :=
  match strip s with
  | String "+"%char d => digits_go false 0 d
  | String "-"%char d => Z.opp <$> digits_go false 0 d
  | d => digits_go false 0 d
  end.

(** [sep.join(l)] *)
Fixpoint join (sep : string) (l : list string) : string :=
  match l with
  | [] => ""
  | [x] => x
  | x :: l' => x +:+ sep +:+ join sep l'
  end.

End PyStr.


(** ** Exceptions and results *)

Inductive exn :=
  | KeyError
  | IndexError
  | ValueError (msg : string).

Inductive result (A : Type) :=
  | Ok (a : A)
  | Raise (e : exn).
Arguments Ok {A} a.
Arguments Raise {A} e.

(** Sequencing: the first exception raised ends the computation. *)
Global Instance result_bind : MBind result := λ A B k r,
  match r with
  | Ok a => k a
  | Raise e => Raise e
  end.

(** [int(s)] as a result. *)
Definition int_of (s : string) : result Z :=
  match PyStr.py_int s with
  | Some n => Ok n
  | None => Raise (ValueError "invalid literal for int() with base 10")
  end.

(** [l[i]] *)
Definition index {A} (l : list A) (i : nat) : result A :=
  match l !! i with
  | Some a => Ok a
  | None => Raise IndexError
  end.

(** ** Configuration tables *)

(** [CRYPTO_OPTIONS]: display name, asset id, in the order of the source. *)
Definition CRYPTO_OPTIONS : list (string * string) :=
  [ ("Bitcoin", "bitcoin"); ("Ethereum", "ethereum"); ("Solana", "solana");
    ("Cardano", "cardano"); ("Dogecoin", "dogecoin"); ("Polkadot", "polkadot");
    ("Avalanche", "avalanche-2"); ("Chainlink", "chainlink");
    ("Litecoin", "litecoin"); ("Ripple", "ripple");
    ("Binance Coin", "binancecoin"); ("Polygon", "matic-network");
    ("Cosmos", "cosmos"); ("Uniswap", "uniswap") ].

(** [INTERVAL_OPTIONS]: label, minutes. *)
Definition INTERVAL_OPTIONS : list (string * Z) :=
  [ ("15 minutes", 15); ("30 minutes", 30); ("1 hour", 60); ("3 hours", 180);
    ("6 hours", 360); ("12 hours", 720); ("24 hours", 1440) ].

(** [[k for k, v in CRYPTO_OPTIONS.items() if v == coin_id][0]] *)
Definition coin_name (coin_id : string) : result string :=
  index (fst <$> filter (λ kv, kv.2 = coin_id) CRYPTO_OPTIONS) 0.

(** [[k for k, v in INTERVAL_OPTIONS.items() if v == interval_minutes][0]] *)
Definition interval_name (interval_minutes : Z) : result string :=
  index (fst <$> filter (λ kv, kv.2 = interval_minutes) INTERVAL_OPTIONS) 0.

(** An asset id the bot knows: a value of [CRYPTO_OPTIONS]. *)
Definition known_coin (coin_id : string) : Prop :=
  coin_id ∈ (snd <$> CRYPTO_OPTIONS).

(** ** Subscriber records, jobs and the process state *)

(** One value of [user_data]. *)
Record user_record := {
  subscribed_coins : list string;
  update_interval : Z;
  is_subscribed : bool;
  job_id : option string
}.

(** The record [subscribe_command] and [coin_selection_callback] create. *)
Definition default_record : user_record :=
  {| subscribed_coins := []; update_interval := 60;
     is_subscribed := false; job_id := None |}.

Definition set_coins (l : list string) (r : user_record) : user_record :=
  {| subscribed_coins := l; update_interval := update_interval r;
     is_subscribed := is_subscribed r; job_id := job_id r |}.

Definition set_interval (n : Z) (r : user_record) : user_record :=
  {| subscribed_coins := subscribed_coins r; update_interval := n;
     is_subscribed := is_subscribed r; job_id := job_id r |}.

Definition set_job (j : option string) (b : bool) (r : user_record) : user_record :=
  {| subscribed_coins := subscribed_coins r; update_interval := update_interval r;
     is_subscribed := b; job_id := j |}.

(** The two trigger kinds passed to [scheduler.add_job]. *)
Inductive trigger :=
  | IntervalTrigger (minutes : Z)
  | CronTrigger (hour minute : Z).

(** The two functions the source schedules. *)
Inductive job_func :=
  | SendPriceUpdate
  | SaveUserData.

Record job := {
  func : job_func;
  trig : trigger;
  args : list Z
}.

(** [UserStates], [None] being the cleared state. *)
Inductive fsm_state :=
  | choosing_coins
  | choosing_interval
  | setting_time.

Global Instance fsm_state_eq_dec : EqDecision fsm_state.
Proof. solve_decision. Defined.
Global Instance job_func_eq_dec : EqDecision job_func.
Proof. solve_decision. Defined.
Global Instance trigger_eq_dec : EqDecision trigger.
Proof. solve_decision. Defined.
Global Instance job_eq_dec : EqDecision job.
Proof. solve_decision. Defined.
Global Instance user_record_eq_dec : EqDecision user_record.
Proof. solve_decision. Defined.

(** [user_data], the scheduler's job store (job id to job), the FSM storage
    and the contents of [user_data.json] ([None]: no readable file). *)
Record state := {
  user_data : gmap Z user_record;
  jobs : gmap string job;
  fsm : gmap Z fsm_state;
  disk : option (gmap Z user_record)
}.

Definition with_users (f : gmap Z user_record → gmap Z user_record) (s : state) : state :=
  {| user_data := f (user_data s); jobs := jobs s; fsm := fsm s; disk := disk s |}.

Definition with_jobs (f : gmap string job → gmap string job) (s : state) : state :=
  {| user_data := user_data s; jobs := f (jobs s); fsm := fsm s; disk := disk s |}.

Definition with_fsm (f : gmap Z fsm_state → gmap Z fsm_state) (s : state) : state :=
  {| user_data := user_data s; jobs := jobs s; fsm := f (fsm s); disk := disk s |}.

(** [scheduler.add_job(f, ..., id=id, replace_existing=True)] *)
Definition add_job (id : string) (j : job) (s : state) : state :=
  with_jobs (insert id j) s.

(** [try: scheduler.remove_job(id) except: pass] *)
Definition remove_job (id : string) (s : state) : state :=
  with_jobs (delete id) s.

(** Truth value of a [job_id] field: [None] and the empty string are false. *)
Definition truthy (j : option string) : option string :=
  match j with
  | Some "" => None
  | _ => j
  end.

(** The timers registered for a subscriber: the jobs of the store that call
    [send_price_update] with that subscriber as argument. *)
Definition is_timer_of (uid : Z) (j : job) : Prop :=
  func j = SendPriceUpdate ∧ args j = [uid].

Definition timers_of (uid : Z) (s : state) : gmap string job :=
  filter (λ kv, is_timer_of uid kv.2) (jobs s).

Definition live_timers (uid : Z) (s : state) : nat := size (timers_of uid s).

(** ** Numbers of a price snapshot and their formatting

    The snapshot holds JSON numbers.  The report only compares them with
    zero and prints them with the format specifications [,.2f] and [+.2f];
    the handlers are written over any number type that offers these. *)
Class NumFormat (num : Type) := {
  num_zero : num;                 (* the default [0] of [price_data.get] *)
  num_sign : num → comparison;    (* the number compared with [0] *)
  fmt_price : num → string;       (* [f"{x:,.2f}"] *)
  fmt_change : num → string       (* [f"{x:+.2f}"] *)
}.

(** The instance for JSON integers. *)
Module IntFormat.

(** Commas between groups of three digits, on the reversed digit string. *)
Fixpoint commas_rev (k : nat) (s : string) : string :=
  match s with
  | "" => ""
  | String c s' =>
      match k with
      | 3%nat => String ","%char (String c (commas_rev 1 s'))
      | _ => String c (commas_rev (S k) s')
      end
  end.

Definition grouped (n : Z) : string :=
  PyStr.rev (commas_rev 0 (PyStr.rev (pretty (Z.abs n)))).

Definition price (n : Z) : string :=
  (if bool_decide (n < 0) then "-" else "") +:+ grouped n +:+ ".00".

Definition change (n : Z) : string :=
  (if bool_decide (n < 0) then "-" else "+") +:+ pretty (Z.abs n) +:+ ".00".

End IntFormat.

Global Instance Z_format : NumFormat Z := {|
  num_zero := 0;
  num_sign := λ n, n ?= 0;
  fmt_price := IntFormat.price;
  fmt_change := IntFormat.change
|}.

(** [datetime.utcnow()] *)
Record datetime := {
  year : nat; month : nat; day : nat;
  hour : nat; minute : nat; second : nat
}.

Definition pad2 (n : nat) : string :=
  if bool_decide (n < 10)%nat then "0" +:+ pretty n else pretty n.

Definition pad4 (n : nat) : string :=
  if bool_decide (n < 10)%nat then "000" +:+ pretty n
  else if bool_decide (n < 100)%nat then "00" +:+ pretty n
  else if bool_decide (n < 1000)%nat then "0" +:+ pretty n
  else pretty n.

(** [t.strftime('%Y-%m-%d %H:%M:%S')] *)
Definition strftime (t : datetime) : string :=
  pad4 (year t) +:+ "-" +:+ pad2 (month t) +:+ "-" +:+ pad2 (day t) +:+ " " +:+
  pad2 (hour t) +:+ ":" +:+ pad2 (minute t) +:+ ":" +:+ pad2 (second t).

(** ** Snapshots, the environment and the observable events *)

(** One value of the mapping CoinGecko returns: the keys [usd] and
    [usd_24h_change], either of which may be missing. *)
Record price_data (num : Type) := {
  usd : option num;
  usd_24h_change : option num
}.
Arguments usd {num} _.
Arguments usd_24h_change {num} _.

Abbreviation snapshot num := (gmap string (price_data num)).

(** What [session.get(url, timeout=10)] followed by [response.json()] can
    do: answer with a status and a body that decodes to a mapping or does
    not, or raise (connection error, timeout). *)
Inductive http_outcome (num : Type) :=
  | HttpResponse (status : Z) (body : option (snapshot num))
  | HttpRaised.
Arguments HttpResponse {num} status body.
Arguments HttpRaised {num}.

(** The inputs a handler takes from outside: the answer of the price API to
    a request for a list of ids, and the clock. *)
Record env (num : Type) := {
  http_get : list string → http_outcome num;
  utcnow : datetime
}.
Arguments http_get {num} _ _.
Arguments utcnow {num} _.

(** The texts the bot sends, one constructor per message of the source. *)
Inductive message :=
  | Welcome
  | AlreadySubscribed
  | SelectCoins
  | SelectAtLeastOne
  | SelectInterval
  | SubscriptionActivated (coins : nat) (name : string)
  | EnterCustomSchedule
  | ScheduledEvery (minutes : Z)
  | ScheduledDaily (hour minute : Z)
  | CustomTimeError (e : exn)
  | NotSubscribed
  | Unsubscribed
  | NotSubscribedYet
  | Settings (names : list string) (interval : string) (active : bool)
  | FetchWarning
  | Report (text : string)
  | NotTracking
  | Tracked (names : list string)
  | Help
  | Cancelled.

Inductive log_entry :=
  | ApiError (status : Z)
  | FetchFailed
  | UpdateFailed (uid : Z) (e : exn).

Inductive event :=
  | SendMessage (chat : Z) (m : message)
  | EditText (chat : Z) (m : message)
  | EditMarkup (chat : Z) (selected : list string)
  | Answer (chat : Z) (alert : option message)
  | LogError (entry : log_entry).

(** What running a handler yields: the state it leaves, the events it
    emitted, and the exception that escaped it, if any. *)
Record outcome := {
  st : state;
  evs : list event;
  exc : option exn
}.

Definition done (s : state) (l : list event) : outcome :=
  {| st := s; evs := l; exc := None |}.

Definition crashed (s : state) (l : list event) (e : exn) : outcome :=
  {| st := s; evs := l; exc := Some e |}.

(** The messages an outcome shows to the user (log lines left out). *)
Definition is_log (e : event) : bool :=
  match e with
  | LogError _ => true
  | _ => false
  end.

Definition user_visible (l : list event) : list event :=
  filter (λ e, is_log e = false) l.

(** ** Reading a custom schedule *)

(** What the text of a custom schedule denotes, before it is validated. *)
Inductive schedule_input :=
  | Every (minutes : Z)
  | DailyAt (hour minute : Z).

(** The branch [text.startswith('every ')]. *)
Definition parse_every (text : string) : result Z :=
  if PyStr.contains "minute" text then
    p ← index (PyStr.split_ws text) 1; int_of p
  else if PyStr.contains "hour" text then
    p ← index (PyStr.split_ws text) 1; n ← int_of p; Ok (n * 60)
  else Raise (ValueError "Invalid format").

(** The branch ['at ' in text].  Unpacking [map(int, ...)] into two
    names converts the third piece, when there is one, before it
    complains about it. *)
Definition parse_at (text : string) : result (Z * Z) :=
  p ← index (PyStr.split "at " text) 1;
  let time_str := PyStr.strip p in
  if PyStr.contains ":" time_str then
    match PyStr.split ":" time_str with
    | h :: m :: more =>
        hour ← int_of h;
        minute ← int_of m;
        match more with
        | [] => Ok (hour, minute)
        | x :: _ =>
            _ ← int_of x;
            Raise (ValueError "too many values to unpack (expected 2)")
        end
    | _ => Raise (ValueError "not enough values to unpack (expected 2)")
    end
  else
    hour ← int_of time_str; Ok (hour, 0).

Definition parse_custom_time (text : string) : result schedule_input :=
  if PyStr.startswith "every " text then
    minutes ← parse_every text; Ok (Every minutes)
  else if PyStr.contains "at " text then
    hm ← parse_at text; Ok (DailyAt hm.1 hm.2)
  else Raise (ValueError "Invalid format. Please use examples provided.").

(** ** The handlers *)

Section Bot.
Context {num : Type} `{NumFormat num}.

(** [get_crypto_prices]: the mapping returned and the lines logged. *)
Definition get_crypto_prices (e : env num) (coins : list string)
  : snapshot num * list event :=
  match http_get e coins with
  | HttpResponse status body =>
      if bool_decide (status = 200)
      then match body with
           | Some prices => (prices, [])
           | None => (∅, [LogError FetchFailed])
           end
      else (∅, [LogError (ApiError status)])
  | HttpRaised => (∅, [LogError FetchFailed])
  end.

(** The two lines of the report for one asset. *)
Definition price_line (name : string) (pd : price_data num) : string :=
  let price := default num_zero (usd pd) in
  let change_24h := default num_zero (usd_24h_change pd) in
  let change_emoji :=
    match num_sign change_24h with
    | Gt => "📈"
    | Lt => "📉"
    | Eq => "➡️"
    end in
  "**" +:+ name +:+ "**: $" +:+ fmt_price price +:+ PyStr.nl +:+
  "   24h: " +:+ change_emoji +:+ " " +:+ fmt_change change_24h +:+ "%" +:+
  PyStr.nl +:+ PyStr.nl.

(** The loop [for coin_id in ...: if coin_id in prices: ...] of
    [send_price_update] and [prices_command]. *)
Fixpoint price_lines (coins : list string) (prices : snapshot num)
  : result string :=
  match coins with
  | [] => Ok ""
  | coin_id :: rest =>
      match prices !! coin_id with
      | Some pd =>
          name ← coin_name coin_id;
          tail ← price_lines rest prices;
          Ok (price_line name pd +:+ tail)
      | None => price_lines rest prices
      end
  end.

Definition update_header (now : datetime) : string :=
  "📊 **Crypto Price Update**" +:+ PyStr.nl +:+
  "⏰ " +:+ strftime now +:+ " UTC" +:+ PyStr.nl +:+ PyStr.nl.

Definition update_footer : string :=
  PyStr.nl +:+ "Use /settings to modify your preferences.".

(** The report of a scheduled update: lines 163 to 177. *)
Definition price_update_message (now : datetime) (coins : list string)
    (prices : snapshot num) : result string :=
  body ← price_lines coins prices;
  Ok (update_header now +:+ body +:+ update_footer).

(** [send_price_update]: the whole body stands in a [try] whose handler
    logs, so no exception escapes. *)
Definition send_price_update (e : env num) (user_id : Z) (s : state) : outcome :=
  match user_data s !! user_id with
  | None => done s []
  | Some user =>
      match subscribed_coins user with
      | [] => done s []
      | coins =>
          let '(prices, logged) := get_crypto_prices e coins in
          if bool_decide (prices = ∅)
          then done s (logged ++ [SendMessage user_id FetchWarning])
          else match price_update_message (utcnow e) coins prices with
               | Ok text => done s (logged ++ [SendMessage user_id (Report text)])
               | Raise err => done s (logged ++ [LogError (UpdateFailed user_id err)])
               end
      end
  end.

Definition start_command (user_id : Z) (s : state) : outcome :=
  done s [SendMessage user_id Welcome].

(** [if user_id not in user_data: user_data[user_id] = {...}] *)
Definition ensure_user (user_id : Z) (s : state) : state :=
  match user_data s !! user_id with
  | Some _ => s
  | None => with_users (insert user_id default_record) s
  end.

Definition subscribe_command (user_id : Z) (s : state) : outcome :=
  let s1 := ensure_user user_id s in
  let user := default default_record (user_data s1 !! user_id) in
  if is_subscribed user
  then done s1 [SendMessage user_id AlreadySubscribed]
  else done (with_fsm (insert user_id choosing_coins) s1)
            [SendMessage user_id SelectCoins].

(** [l.remove(x)]: drops the first occurrence. *)
Fixpoint remove_first (x : string) (l : list string) : list string :=
  match l with
  | [] => []
  | y :: l' => if bool_decide (y = x) then l' else y :: remove_first x l'
  end.

Definition toggle (coin_id : string) (coins : list string) : list string :=
  if bool_decide (coin_id ∈ coins)
  then remove_first coin_id coins
  else coins ++ [coin_id].

Definition coin_selection_callback (user_id : Z) (data : string) (s : state)
  : outcome :=
  match index (PyStr.split "_" data) 1 with
  | Raise err => crashed s [] err
  | Ok coin_id =>
      let s1 := ensure_user user_id s in
      let user := default default_record (user_data s1 !! user_id) in
      let coins := toggle coin_id (subscribed_coins user) in
      done (with_users (insert user_id (set_coins coins user)) s1)
           [EditMarkup user_id coins; Answer user_id None]
  end.

Definition coin_action_callback (user_id : Z) (data : string) (s : state)
  : outcome :=
  match user_data s !! user_id with
  | None => crashed s [] KeyError
  | Some user =>
      if bool_decide (data = "select_all") then
        let coins := CRYPTO_OPTIONS.*2 in
        done (with_users (insert user_id (set_coins coins user)) s)
             [EditMarkup user_id coins; Answer user_id None]
      else if bool_decide (data = "clear_all") then
        done (with_users (insert user_id (set_coins [] user)) s)
             [EditMarkup user_id []; Answer user_id None]
      else if bool_decide (data = "coins_done") then
        match subscribed_coins user with
        | [] => done s [Answer user_id (Some SelectAtLeastOne)]
        | _ => done (with_fsm (insert user_id choosing_interval) s)
                    [EditText user_id SelectInterval]
        end
      else
        done s [EditMarkup user_id (subscribed_coins user); Answer user_id None]
  end.

(** The block the three activation paths repeat: remove the job the
    record names, if it names one; add the new job under [new_id],
    replacing a job of that id; store the id and set the flag. *)
Definition install_job (user_id : Z) (user : user_record) (new_id : string)
    (t : trigger) (s : state) : state :=
  let s1 := match truthy (job_id user) with
            | Some old => remove_job old s
            | None => s
            end in
  let s2 := add_job new_id
              {| func := SendPriceUpdate; trig := t; args := [user_id] |} s1 in
  with_users (insert user_id (set_job (Some new_id) true user)) s2.

Definition interval_job_id (user_id : Z) : string := "user_" +:+ pretty user_id.
Definition daily_job_id (user_id : Z) : string :=
  "user_" +:+ pretty user_id +:+ "_daily".

Definition interval_selection_callback (e : env num) (user_id : Z)
    (data : string) (s : state) : outcome :=
  match (p ← index (PyStr.split "_" data) 1; int_of p) with
  | Raise err => crashed s [] err
  | Ok interval_minutes =>
      match user_data s !! user_id with
      | None => crashed s [] KeyError
      | Some user0 =>
          let user := set_interval interval_minutes user0 in
          let s1 := with_users (insert user_id user) s in
          let s2 := install_job user_id user (interval_job_id user_id)
                      (IntervalTrigger interval_minutes) s1 in
          match interval_name interval_minutes with
          | Raise err => crashed s2 [] err
          | Ok name =>
              let sent := send_price_update e user_id s2 in
              done (with_fsm (delete user_id) s2)
                   (EditText user_id
                      (SubscriptionActivated
                         (List.length (subscribed_coins user)) name)
                    :: evs sent)
          end
      end
  end.

Definition custom_time_callback (user_id : Z) (s : state) : outcome :=
  done (with_fsm (insert user_id setting_time) s)
       [EditText user_id EnterCustomSchedule].

(** The body of the [try] of [process_custom_time], on the lowered text.
    Each branch validates before it touches the store. *)
Definition custom_time_try (e : env num) (user_id : Z) (text : string)
    (s : state) : outcome :=
  match parse_custom_time text with
  | Raise err => crashed s [] err
  | Ok (Every minutes) =>
      if bool_decide (minutes < 1)
      then crashed s [] (ValueError "Interval must be at least 1 minute")
      else
        match user_data s !! user_id with
        | None => crashed s [] KeyError
        | Some user0 =>
            let user := set_interval minutes user0 in
            let s1 := with_users (insert user_id user) s in
            let s2 := install_job user_id user (interval_job_id user_id)
                        (IntervalTrigger minutes) s1 in
            let sent := send_price_update e user_id s2 in
            done (with_fsm (delete user_id) s2)
                 (SendMessage user_id (ScheduledEvery minutes) :: evs sent)
        end
  | Ok (DailyAt hour minute) =>
      if negb (bool_decide (0 ≤ hour < 24 ∧ 0 ≤ minute < 60))
      then crashed s [] (ValueError "Invalid time")
      else
        match user_data s !! user_id with
        | None => crashed s [] KeyError
        | Some user =>
            let s2 := install_job user_id user (daily_job_id user_id)
                        (CronTrigger hour minute) s in
            let sent := send_price_update e user_id s2 in
            done (with_fsm (delete user_id) s2)
                 (SendMessage user_id (ScheduledDaily hour minute) :: evs sent)
        end
  end.

(** [process_custom_time]: an exception of the body is answered with the
    error message; the changes made before it stay. *)
Definition process_custom_time (e : env num) (user_id : Z) (text : string)
    (s : state) : outcome :=
  let o := custom_time_try e user_id (PyStr.lower text) s in
  match exc o with
  | Some err => done (st o) (evs o ++ [SendMessage user_id (CustomTimeError err)])
  | None => o
  end.

Definition unsubscribe_command (user_id : Z) (s : state) : outcome :=
  match user_data s !! user_id with
  | None => done s [SendMessage user_id NotSubscribed]
  | Some user =>
      if negb (is_subscribed user)
      then done s [SendMessage user_id NotSubscribed]
      else
        let s1 := match truthy (job_id user) with
                  | Some old => remove_job old s
                  | None => s
                  end in
        done (with_users (insert user_id (set_job None false user)) s1)
             [SendMessage user_id Unsubscribed]
  end.

(** [coin_names] of [settings_command] and [list_command]. *)
Fixpoint coin_names (coins : list string) : result (list string) :=
  match coins with
  | [] => Ok []
  | coin_id :: rest =>
      name ← coin_name coin_id;
      names ← coin_names rest;
      Ok (name :: names)
  end.

(** The label of the first interval option equal to the stored interval,
    ["Custom"] when there is none. *)
Definition interval_label (minutes : Z) : string :=
  match filter (λ kv, kv.2 = minutes) INTERVAL_OPTIONS with
  | kv :: _ => kv.1
  | [] => "Custom"
  end.

Definition settings_command (user_id : Z) (s : state) : outcome :=
  match user_data s !! user_id with
  | None => done s [SendMessage user_id NotSubscribedYet]
  | Some user =>
      if negb (is_subscribed user)
      then done s [SendMessage user_id NotSubscribedYet]
      else match coin_names (subscribed_coins user) with
           | Raise err => crashed s [] err
           | Ok names =>
               done s [SendMessage user_id
                         (Settings names (interval_label (update_interval user))
                            (is_subscribed user))]
           end
  end.

Definition default_coins : list string :=
  ["bitcoin"; "ethereum"; "solana"; "cardano"; "dogecoin"].

Definition coins_to_check (user_id : Z) (s : state) : list string :=
  match user_data s !! user_id with
  | Some user =>
      match subscribed_coins user with
      | [] => default_coins
      | coins => coins
      end
  | None => default_coins
  end.

Definition subscribe_hint (user_id : Z) (s : state) : string :=
  match user_data s !! user_id with
  | Some user =>
      if is_subscribed user then ""
      else PyStr.nl +:+ "💡 Use /subscribe to get automatic updates!"
  | None => PyStr.nl +:+ "💡 Use /subscribe to get automatic updates!"
  end.

(** [prices_command]: no [try] here, an exception of the loop escapes. *)
Definition prices_command (e : env num) (user_id : Z) (s : state) : outcome :=
  let coins := coins_to_check user_id s in
  let '(prices, logged) := get_crypto_prices e coins in
  if bool_decide (prices = ∅)
  then done s (logged ++ [SendMessage user_id FetchWarning])
  else match price_lines coins prices with
       | Raise err => crashed s logged err
       | Ok body =>
           done s (logged ++
             [SendMessage user_id
                (Report ("📊 **Current Crypto Prices**" +:+ PyStr.nl +:+ PyStr.nl
                         +:+ body +:+ subscribe_hint user_id s))])
       end.

Definition list_command (user_id : Z) (s : state) : outcome :=
  match user_data s !! user_id with
  | None => done s [SendMessage user_id NotTracking]
  | Some user =>
      match subscribed_coins user with
      | [] => done s [SendMessage user_id NotTracking]
      | coins =>
          match coin_names coins with
          | Raise err => crashed s [] err
          | Ok names => done s [SendMessage user_id (Tracked names)]
          end
      end
  end.

Definition help_command (user_id : Z) (s : state) : outcome :=
  done s [SendMessage user_id Help].

Definition cancel_command (user_id : Z) (s : state) : outcome :=
  match fsm s !! user_id with
  | None => done s []
  | Some _ => done (with_fsm (delete user_id) s) [SendMessage user_id Cancelled]
  end.

(** [save_user_data] of [run_bot]: writes [user_data] to the file. *)
Definition save_user_data (s : state) : state :=
  {| user_data := user_data s; jobs := jobs s; fsm := fsm s;
     disk := Some (user_data s) |}.

(** The scheduler runs the job stored under [id]: it calls the job's
    function on the job's arguments. *)
Definition fire (e : env num) (id : string) (s : state) : outcome :=
  match jobs s !! id with
  | None => done s []
  | Some j =>
      match func j, args j with
      | SendPriceUpdate, [user_id] => send_price_update e user_id s
      | SaveUserData, [] => done (save_user_data s) []
      | _, _ => done s []
      end
  end.

(** ** Start of the process *)

(** The state of a fresh process beside a given file. *)
Definition fresh_process (file : option (gmap Z user_record)) : state :=
  {| user_data := ∅; jobs := ∅; fsm := ∅; disk := file |}.

(** The job [run_bot] adds for [save_user_data]. *)
Definition save_job : job :=
  {| func := SaveUserData; trig := IntervalTrigger 5; args := [] |}.

(** [run_bot] up to the start of polling: start the scheduler, merge the
    file into [user_data] ([dict.update]: the loaded entries win), add the
    periodic save job.  The job gets no [id] argument, the scheduler makes
    one up; [save_id] is that id. *)
Definition run_bot (save_id : string) (s : state) : state :=
  let s1 := match disk s with
            | Some loaded_data => with_users (λ m, loaded_data ∪ m) s
            | None => s
            end in
  add_job save_id save_job s1.

(** ** Dispatch

    The dispatcher hands an update to the first handler, in the order of
    registration, whose filter accepts it. *)
Inductive update :=
  | Message (from_user : Z) (text : string)
  | CallbackQuery (from_user : Z) (data : string).

(** The command a text starts with: the first word, when it begins with a
    slash, up to a mention. *)
Definition command_of (text : string) : option string :=
  match PyStr.split_ws text with
  | String "/"%char w :: _ =>
      match PyStr.split "@" w with
      | c :: _ => Some c
      | [] => None
      end
  | _ => None
  end.

Definition is_command (name text : string) : bool :=
  bool_decide (command_of text = Some name).

Definition dispatch (e : env num) (u : update) (s : state) : outcome :=
  match u with
  | Message user_id text =>
      if is_command "start" text then start_command user_id s
      else if is_command "subscribe" text then subscribe_command user_id s
      else if bool_decide (fsm s !! user_id = Some setting_time)
        then process_custom_time e user_id text s
      else if is_command "unsubscribe" text then unsubscribe_command user_id s
      else if is_command "settings" text then settings_command user_id s
      else if is_command "prices" text then prices_command e user_id s
      else if is_command "list" text then list_command user_id s
      else if is_command "help" text then help_command user_id s
      else if is_command "cancel" text then cancel_command user_id s
      else done s []
  | CallbackQuery user_id data =>
      if PyStr.startswith "coin_" data
        then coin_selection_callback user_id data s
      else if bool_decide (data ∈ ["coins_done"; "select_all"; "clear_all";
                                   "selected_count"])
        then coin_action_callback user_id data s
      else if PyStr.startswith "interval_" data
        then interval_selection_callback e user_id data s
      else if bool_decide (data = "custom_time")
        then custom_time_callback user_id s
      else done s []
  end.

(** A run of the process: updates and timer firings, in the order they
    are served. *)
Inductive step :=
  | Update (u : update)
  | Fire (id : string).

Definition run_step (e : env num) (x : step) (s : state) : outcome :=
  match x with
  | Update u => dispatch e u s
  | Fire id => fire e id s
  end.

Definition run (e : env num) (l : list step) (s : state) : state :=
  foldl (λ s x, st (run_step e x s)) s l.

End Bot.

(** * Properties of the model *)

(** ** The schedule invariant *)

(** Used to tell the two kinds of job id apart: the decimal form of a user
    id has no underscore. *)
Fixpoint has_underscore (s : string) : bool :=
  match s with
  | "" => false
  | String c s' => Ascii.eqb c "_"%char || has_underscore s'
  end.

(** The job stored under [id] is a timer of subscriber [uid]. *)
Definition timer_at (s : state) (id : string) (uid : Z) : Prop :=
  ∃ j, jobs s !! id = Some j ∧ is_timer_of uid j.

(** The invariant the handlers keep: a record with a handle is flagged and
    its handle names a timer of the subscriber, a record without one is not
    flagged; every timer is named by the record of its subscriber; and the
    id of a timer is one of the two the handlers form from the user id. *)
Record schedule_inv (s : state) : Prop := {
  inv_handle : ∀ uid r, user_data s !! uid = Some r →
    match job_id r with
    | Some h => is_subscribed r = true ∧ timer_at s h uid
    | None => is_subscribed r = false
    end;
  inv_owner : ∀ id uid, timer_at s id uid →
    ∃ r, user_data s !! uid = Some r ∧ job_id r = Some id;
  inv_name : ∀ id uid, timer_at s id uid →
    id = interval_job_id uid ∨ id = daily_job_id uid
}.

(** What the invariant says about one record, in the words of the data
    model: the flag is set exactly when a handle is stored, and the number
    of live timers is one when it is set and zero when it is not. *)
Definition record_consistent (s : state) (uid : Z) (r : user_record) : Prop :=
  (is_subscribed r = true ↔ is_Some (job_id r)) ∧
  (is_Some (job_id r) ↔ live_timers uid s = 1%nat) ∧
  (live_timers uid s ≤ 1)%nat.

(** The schedule a subscriber has: the trigger of the job that the handle
    of its record names, if the record has a handle and the job exists. *)
Definition schedule_spec (s : state) (uid : Z) : option trigger :=
  user ← user_data s !! uid;
  id ← job_id user;
  trig <$> jobs s !! id.

(** ** A concrete environment and scenarios *)

(** A snapshot entry with integer numbers. *)
Definition quote (price change : Z) : price_data Z :=
  {| usd := Some price; usd_24h_change := Some change |}.

(** What the price API knows; [tether] is not among [CRYPTO_OPTIONS]. *)
Definition sample_prices : gmap string (price_data Z) :=
  <["bitcoin" := quote 43210 2]>
    (<["ethereum" := quote 2500 (-1)]> (<["tether" := quote 1 0]> ∅)).

(** The price API answers every request with the part of [sample_prices]
    that was asked for. *)
Definition sample_api (coins : list string) : http_outcome Z :=
  HttpResponse 200 (Some (filter (λ kv, kv.1 ∈ coins) sample_prices)).

Definition morning : datetime :=
  {| year := 2026; month := 3; day := 14; hour := 9; minute := 5; second := 0 |}.

Definition sample_env : env Z := {| http_get := sample_api; utcnow := morning |}.

(** A first start with no file; subscriber 1 picks Bitcoin and the
    60-minute interval; the save job runs. *)
Definition first_trace : list step :=
  [ Update (Message 1 "/subscribe");
    Update (CallbackQuery 1 "coin_bitcoin");
    Update (CallbackQuery 1 "coins_done");
    Update (CallbackQuery 1 "interval_60");
    Fire "7f3a" ].

Definition first_session : state :=
  run sample_env first_trace (run_bot "7f3a" (fresh_process None)).

(** A file that holds one subscriber, not subscribed. *)
Definition inactive_file : gmap Z user_record :=
  {[ 2 := {| subscribed_coins := ["solana"]; update_interval := 60;
             is_subscribed := false; job_id := None |} ]}.

(** The process is started again beside the file the first one left. *)
Definition restarted : state := run_bot "c41d" (fresh_process (disk first_session)).

(** Subscriber 1 picks Bitcoin, presses "Done", sends [/subscribe] once more
    and presses "Clear All" on the new keyboard: the watchlist is empty and
    the interval keyboard of the first message is still there. *)
Definition empty_watch_session : state :=
  run sample_env
    [ Update (Message 1 "/subscribe");
      Update (CallbackQuery 1 "coin_bitcoin");
      Update (CallbackQuery 1 "coins_done");
      Update (Message 1 "/subscribe");
      Update (CallbackQuery 1 "clear_all") ]
    (run_bot "7f3a" (fresh_process None)).


(** The watchlist of subscriber 1 holds an id outside [CRYPTO_OPTIONS]. *)
Definition unknown_asset_session : state :=
  run sample_env
    [ Update (Message 1 "/subscribe");
      Update (CallbackQuery 1 "coin_bitcoin");
      Update (CallbackQuery 1 "coin_tether");
      Update (CallbackQuery 1 "coins_done");
      Update (CallbackQuery 1 "interval_60") ]
    (run_bot "7f3a" (fresh_process None)).

(** The text of a custom schedule denotes an interval below one minute or
    a time of day out of range. *)
Definition invalid_schedule (text : string) : Prop :=
  (∃ n, parse_custom_time (PyStr.lower text) = Ok (Every n) ∧ n < 1)
  ∨ (∃ h m, parse_custom_time (PyStr.lower text) = Ok (DailyAt h m)
            ∧ ¬ (0 ≤ h < 24 ∧ 0 ≤ m < 60)).


(** Subscriber 1 watches Bitcoin and Ethereum every 30 minutes. *)
Definition two_coin_session : state :=
  run sample_env
    [ Update (Message 1 "/subscribe");
      Update (CallbackQuery 1 "coin_bitcoin");
      Update (CallbackQuery 1 "coin_ethereum");
      Update (CallbackQuery 1 "coins_done");
      Update (CallbackQuery 1 "interval_30") ]
    (run_bot "7f3a" (fresh_process None)).


(** The price API is unreachable; the price API answers with an empty
    mapping. *)
Definition failing_env : env Z := {| http_get := λ _, HttpRaised; utcnow := morning |}.
Definition empty_env : env Z :=
  {| http_get := λ _, HttpResponse 200 (Some ∅); utcnow := morning |}.

(** * The keyboards, the stored file and restarts *)

(** ** The keyboards *)

(** An [InlineKeyboardButton]. *)
Record button := {
  text : string;
  callback_data : string
}.

(** [rows[-1].append(b)].  On an empty list Python raises; the loop never
    meets it, since the turn for [i = 0] appends a row first. *)
Fixpoint append_last (b : button) (rows : list (list button)) : list (list button) :=
  match rows with
  | [] => []
  | [row] => [(row ++ [b])%list]
  | row :: rest => row :: append_last b rest
  end.

(** The button of one entry of [CRYPTO_OPTIONS]. *)
Definition coin_button (selected_coins : list string) (option : string * string)
  : button :=
  let '(name, coin_id) := option in
  let emoji := if bool_decide (coin_id ∈ selected_coins) then "✅" else "⬜" in
  {| text := emoji +:+ " " +:+ name; callback_data := "coin_" +:+ coin_id |}.

(** One turn of the loop of [create_coin_selection_keyboard]: a new row
    before every third button, the button at the end of the last row. *)
Definition coin_rows_step (selected_coins : list string)
    (rows : list (list button)) (item : nat * (string * string)) : list (list button) :=
  let '(i, option) := item in
  append_last (coin_button selected_coins option)
    (if bool_decide (i mod 3 = 0)%nat then (rows ++ [[]])%list else rows).

(** The rows of coin buttons over a table of options. *)
Definition coin_rows (selected_coins : list string)
    (options : list (string * string)) : list (list button) :=
  foldl (coin_rows_step selected_coins) [] (imap (λ i kv, (i, kv)) options).

(** [create_coin_selection_keyboard]: the coin rows, the row of the count,
    the row of the actions. *)
Definition create_coin_selection_keyboard (selected_coins : list string)
  : list (list button) :=
  (coin_rows selected_coins CRYPTO_OPTIONS ++
  [ [ {| text := "📊 Selected: " +:+ pretty (List.length selected_coins);
         callback_data := "selected_count" |} ];
    [ {| text := "✅ Done"; callback_data := "coins_done" |};
      {| text := "🔄 Select All"; callback_data := "select_all" |};
      {| text := "🗑️ Clear All"; callback_data := "clear_all" |} ] ])%list.

(** [create_interval_keyboard]: one row per entry of [INTERVAL_OPTIONS],
    then the row of the custom time and the cancel button. *)
Definition create_interval_keyboard : list (list button) :=
  (((λ kv : string * Z,
      [ {| text := kv.1; callback_data := "interval_" +:+ pretty kv.2 |} ])
     <$> INTERVAL_OPTIONS) ++
  [ [ {| text := "⏰ Custom Time"; callback_data := "custom_time" |};
      {| text := "❌ Cancel"; callback_data := "cancel" |} ] ])%list.

(** ** The life of the process *)

(** The life of the bot: steps of a running process, and restarts.  At a
    restart the process ends and [run_bot] runs in a new one: [user_data],
    the job store and the FSM storage live in memory and start empty, the
    file is the one the last process left. *)
Inductive life_step :=
  | Step (x : step)
  | Restart (save_id : string).

Definition live_step {num : Type} `{NumFormat num} (e : env num)
    (x : life_step) (s : state) : state :=
  match x with
  | Step x => st (run_step e x s)
  | Restart save_id => run_bot save_id (fresh_process (disk s))
  end.

(** A history of steps and restarts, in the order they happen. *)
Definition live {num : Type} `{NumFormat num} (e : env num)
    (history : list life_step) (s : state) : state :=
  foldl (λ s x, live_step e x s) s history.

(** ** The keys of the stored file *)

(** [json.dump] writes an integer key as its decimal string. *)
Definition json_items (m : gmap Z user_record) : list (string * user_record) :=
  (λ kv, (pretty kv.1, kv.2)) <$> map_to_list m.

(** [{int(k): v for k, v in loaded_data.items()}]: a later item replaces an
    earlier one of the same id; a key that [int] refuses ends the load. *)
Definition load_item (acc : result (gmap Z user_record))
    (kv : string * user_record) : result (gmap Z user_record) :=
  m ← acc; k ← int_of kv.1; Ok (<[k := kv.2]> m).

Definition load_items (items : list (string * user_record))
  : result (gmap Z user_record) :=
  foldl load_item (Ok ∅) items.

(** * Further properties *)

(** ** Strings of one kind of character *)

(** Every character of [s] satisfies [P]. *)
Fixpoint string_all (P : ascii → bool) (s : string) : bool :=
  match s with
  | "" => true
  | String c s' => P c && string_all P s'
  end.

(** The characters of the decimal form of an integer. *)
Definition decimal_char (c : ascii) : bool :=
  match PyStr.digit_of c with
  | Some _ => true
  | None => Ascii.eqb c "-"%char
  end.

(** No white space; any character but [c]; a decimal digit. *)
Definition not_space (c : ascii) : bool := negb (PyStr.is_space c).

Definition other_than (c : ascii) (x : ascii) : bool := negb (Ascii.eqb x c).

Definition digit_char (c : ascii) : bool :=
  match PyStr.digit_of c with
  | Some _ => true
  | None => false
  end.

(** ** The coin rows *)

(** What the loop has built after [k] options. *)
Definition rows_built (buttons : list button) (rows : list (list button)) : Prop :=
  List.concat rows = buttons
  ∧ Forall (λ row : list button, (1 ≤ List.length row ≤ 3)%nat) rows
  ∧ match List.length buttons with
    | O => rows = []
    | S k => ∃ init last, rows = (init ++ [last])%list
                          ∧ List.length last = S (k mod 3)
    end.

(** ** The invariant that survives a restart *)

(** What holds of a record whether or not its timer is there: the flag is
    set exactly when a handle is stored, and the handle is one of the two
    ids the handlers form for the subscriber. *)
Definition record_well_formed (uid : Z) (r : user_record) : Prop :=
  match job_id r with
  | Some h => is_subscribed r = true
              ∧ (h = interval_job_id uid ∨ h = daily_job_id uid)
  | None => is_subscribed r = false
  end.

(** The invariant that survives a restart: the records are well formed and
    every timer is named by the record of its subscriber.  A handle may
    name no job. *)
Record store_inv (s : state) : Prop := {
  store_records : ∀ uid r, user_data s !! uid = Some r → record_well_formed uid r;
  store_owner : ∀ id uid, timer_at s id uid →
    ∃ r, user_data s !! uid = Some r ∧ job_id r = Some id
}.

(** The records of the file, if there is one, are well formed. *)
Definition file_ok (s : state) : Prop :=
  ∀ m uid r, disk s = Some m → m !! uid = Some r → record_well_formed uid r.

(** The handle of a subscriber, if there is one, names a timer of theirs. *)
Definition handle_live (s : state) (uid : Z) : Prop :=
  ∀ r h, user_data s !! uid = Some r → job_id r = Some h → timer_at s h uid.

(** The store invariant together with the liveness of the handles of the
    subscribers in [L]. *)
Definition settled (L : Z → Prop) (s : state) : Prop :=
  store_inv s ∧ ∀ v, L v → handle_live s v.

(** ** Watchlists and flows *)

(** Every stored watchlist satisfies [P]. *)
Definition watchlists (P : list string → Prop) (s : state) : Prop :=
  ∀ uid r, user_data s !! uid = Some r → P (subscribed_coins r).

(** The coin a step toggles, when the step is the press of a coin button. *)
Definition toggled_coin (x : step) : option string :=
  match x with
  | Update (CallbackQuery _ data) =>
      if PyStr.startswith "coin_" data
      then match index (PyStr.split "_" data) 1 with
           | Ok coin_id => Some coin_id
           | Raise _ => None
           end
      else None
  | _ => None
  end.

(** The presses of the coin buttons of a list of assets. *)
Definition coin_presses (uid : Z) (coins : list string) : list step :=
  (λ c, Update (CallbackQuery uid ("coin_" +:+ c))) <$> coins.

(** [/subscribe], one press per asset, "Done", an interval button. *)
Definition subscription_flow (uid : Z) (coins : list string) (minutes : Z)
  : list step :=
  ([Update (Message uid "/subscribe")] ++ coin_presses uid coins ++
   [ Update (CallbackQuery uid "coins_done");
     Update (CallbackQuery uid ("interval_" +:+ pretty minutes)) ])%list.

(** ** Confirmations *)

(** What a message of confirmation says about the state it is sent in: the
    schedule it names is the schedule of the subscriber, with one timer
    behind it; after the message of unsubscription there is no schedule and
    no timer.  The other events say nothing here. *)
Definition confirmed (s : state) (ev : event) : Prop :=
  match ev with
  | EditText uid (SubscriptionActivated _ name) =>
      ∃ n, (name, n) ∈ INTERVAL_OPTIONS
           ∧ schedule_spec s uid = Some (IntervalTrigger n)
           ∧ live_timers uid s = 1%nat
  | SendMessage uid (ScheduledEvery minutes) =>
      1 ≤ minutes
      ∧ schedule_spec s uid = Some (IntervalTrigger minutes)
      ∧ live_timers uid s = 1%nat
  | SendMessage uid (ScheduledDaily hour minute) =>
      0 ≤ hour < 24 ∧ 0 ≤ minute < 60
      ∧ schedule_spec s uid = Some (CronTrigger hour minute)
      ∧ live_timers uid s = 1%nat
  | SendMessage uid Unsubscribed =>
      schedule_spec s uid = None ∧ live_timers uid s = 0%nat
  | _ => True
  end.

(** The events that confirm nothing. *)
Definition plain (ev : event) : bool :=
  match ev with
  | EditText _ (SubscriptionActivated _ _)
  | SendMessage _ (ScheduledEvery _)
  | SendMessage _ (ScheduledDaily _ _)
  | SendMessage _ Unsubscribed => false
  | _ => true
  end.

(** * Lemmas and theorems *)

(** ** Job ids *)

Lemma has_underscore_app s t :
  has_underscore (s +:+ t) = has_underscore s || has_underscore t.
Proof. induction s as [|c s IH]; simpl; [done|]. by rewrite IH, orb_assoc. Qed.

Lemma pretty_N_char_no_underscore x : Ascii.eqb (pretty_N_char x) "_"%char = false.
Proof. unfold pretty_N_char. by repeat case_match. Qed.

Lemma pretty_N_go_no_underscore x s :
  has_underscore s = false → has_underscore (pretty_N_go x s) = false.
Proof.
  revert s. induction (N.lt_wf_0 x) as [x _ IH]; intros s Hs.
  destruct (decide (x = 0)%N) as [->|Hx]; [by rewrite pretty_N_go_0|].
  rewrite pretty_N_go_step by lia. apply IH.
  - apply N.div_lt; lia.
  - simpl. by rewrite pretty_N_char_no_underscore.
Qed.

Lemma pretty_N_no_underscore (x : N) : has_underscore (pretty x) = false.
Proof.
  unfold pretty, pretty_N. case_decide; [done|].
  by apply pretty_N_go_no_underscore.
Qed.

Lemma pretty_Z_no_underscore (x : Z) : has_underscore (pretty x) = false.
Proof.
  destruct x as [|p|p]; [done|apply pretty_N_no_underscore|].
  change (pretty (Z.neg p)) with ("-" +:+ pretty (N.pos p)).
  rewrite has_underscore_app. simpl. apply pretty_N_no_underscore.
Qed.

Lemma interval_job_id_inj u v : interval_job_id u = interval_job_id v → u = v.
Proof.
  unfold interval_job_id. intros Huv. apply (inj _) in Huv.
  by apply (inj pretty) in Huv.
Qed.

Lemma string_length_app (s t : string) :
  String.length (s +:+ t) = (String.length s + String.length t)%nat.
Proof. induction s as [|c s IH]; simpl; [done|]. by rewrite IH. Qed.

Lemma string_app_inj_r (s1 s2 t : string) : s1 +:+ t = s2 +:+ t → s1 = s2.
Proof.
  revert s2. induction s1 as [|c s1 IH]; intros [|d s2] Heq.
  - done.
  - exfalso. apply (f_equal String.length) in Heq.
    rewrite !string_length_app in Heq. cbn [String.length] in Heq. lia.
  - exfalso. apply (f_equal String.length) in Heq.
    rewrite !string_length_app in Heq. cbn [String.length] in Heq. lia.
  - simpl in Heq. injection Heq as -> Heq. f_equal. by apply IH.
Qed.

Lemma daily_job_id_inj u v : daily_job_id u = daily_job_id v → u = v.
Proof.
  unfold daily_job_id. intros Huv. apply (inj _) in Huv.
  apply string_app_inj_r in Huv. by apply (inj pretty) in Huv.
Qed.

Lemma interval_ne_daily u v : interval_job_id u ≠ daily_job_id v.
Proof.
  unfold interval_job_id, daily_job_id. intros Huv. apply (inj _) in Huv.
  apply (f_equal has_underscore) in Huv.
  rewrite has_underscore_app, !pretty_Z_no_underscore in Huv. done.
Qed.

Lemma truthy_job_id (id : string) u :
  id = interval_job_id u ∨ id = daily_job_id u → truthy (Some id) = Some id.
Proof. by intros [->| ->]. Qed.

(** ** The schedule invariant *)

Lemma timer_at_functional s id u v : timer_at s id u → timer_at s id v → u = v.
Proof.
  intros (j & Hj & _ & Hu) (j' & Hj' & _ & Hv). simplify_eq. congruence.
Qed.





(** Dropping the job a record names takes away that subscriber's timer and
    no other. *)
Lemma timer_at_remove s uid r id u :
  schedule_inv s → user_data s !! uid = Some r →
  timer_at (match truthy (job_id r) with
            | Some old => remove_job old s
            | None => s
            end) id u ↔ timer_at s id u ∧ u ≠ uid.
Proof.
  intros [H1 H2 H3] Hr. specialize (H1 uid r Hr).
  destruct (job_id r) as [h|] eqn:Hh.
  - destruct H1 as [_ Hh'].
    rewrite (truthy_job_id h uid) by eauto.
    unfold timer_at; simpl. split.
    + intros (j & Hj & Hu). apply lookup_delete_Some in Hj as [Hne Hj].
      split; [eauto|]. intros ->.
      destruct (H2 id uid) as (q & Hq & Hid); [by exists j|]. congruence.
    + intros [(j & Hj & Hu) Hne]. exists j. split; [|done].
      rewrite lookup_delete_ne; [done|]. intros <-.
      apply Hne. eapply timer_at_functional; [by exists j|done].
  - simpl. split; [|tauto]. intros Ht. split; [done|]. intros ->.
    destruct (H2 id uid Ht) as (q & Hq & Hid). congruence.
Qed.


Lemma schedule_inv_unsubscribe s uid r :
  user_data s !! uid = Some r →
  schedule_inv s →
  schedule_inv (with_users (insert uid (set_job None false r))
                  (match truthy (job_id r) with
                   | Some old => remove_job old s
                   | None => s
                   end)).
Proof.
  intros Hr Hinv.
  pose proof (timer_at_remove s uid r) as Hrm.
  destruct Hinv as [H1 H2 H3].
  assert (schedule_inv s) as Hinv by (by split).
  set (s1 := match truthy (job_id r) with
             | Some old => remove_job old s
             | None => s
             end) in *.
  assert (user_data s1 = user_data s) as Hu1.
  { unfold s1. by destruct (truthy (job_id r)). }
  assert (∀ id u, timer_at (with_users (insert uid (set_job None false r)) s1) id u
                  ↔ timer_at s id u ∧ u ≠ uid) as Hchar.
  { intros id u. rewrite <-(Hrm id u Hinv Hr). done. }
  split.
  - intros u q. simpl. destruct (decide (u = uid)) as [->|Hne].
    + rewrite lookup_insert_eq. by intros [= <-].
    + rewrite lookup_insert_ne by done. rewrite Hu1. intros Hq.
      specialize (H1 u q Hq). destruct (job_id q) as [h|]; [|done].
      destruct H1 as [? Hh]. split; [done|]. by apply Hchar.
  - intros id u [Ht Hu]%Hchar. simpl.
    rewrite lookup_insert_ne by done. rewrite Hu1. by apply H2.
  - intros id u [Ht Hu]%Hchar. by apply H3.
Qed.

Lemma schedule_inv_consistent s uid r :
  schedule_inv s → user_data s !! uid = Some r → record_consistent s uid r.
Proof.
  intros [H1 H2 H3] Hr. specialize (H1 uid r Hr).
  unfold record_consistent, live_timers, timers_of.
  destruct (job_id r) as [h|] eqn:Hh.
  - destruct H1 as [Hs (j & Hj & Hjt)].
    assert (filter (λ kv : string * job, is_timer_of uid kv.2) (jobs s) = {[h := j]})
      as ->.
    { apply map_eq. intros i. destruct (decide (i = h)) as [->|Hne].
      - rewrite lookup_singleton_eq. by apply map_lookup_filter_Some.
      - rewrite lookup_singleton_ne by done. apply map_lookup_filter_None.
        right. intros j' Hj' Ht. simpl in Ht.
        destruct (H2 i uid) as (q & Hq & Hid); [by exists j'|]. congruence. }
    rewrite map_size_singleton. split; [|split]; [|done|lia].
    split; [eauto|done].
  - assert (filter (λ kv : string * job, is_timer_of uid kv.2) (jobs s) = ∅) as ->.
    { apply map_eq. intros i. rewrite lookup_empty. apply map_lookup_filter_None.
      right. intros j' Hj' Ht. simpl in Ht.
      destruct (H2 i uid) as (q & Hq & Hid); [by exists j'|]. congruence. }
    rewrite map_size_empty. split; [|split]; [|split|lia].
    + rewrite H1. split; [done|]. by intros [? ?].
    + by intros [? ?].
    + done.
Qed.

(** ** The handlers keep the invariant *)

Section Preservation.
Context {num : Type} `{NumFormat num}.
Implicit Types (e : env num) (s : state).

Lemma send_price_update_st e uid s : st (send_price_update e uid s) = s.
Proof.
  unfold send_price_update. repeat case_match; done.
Qed.



Lemma ensure_user_lookup uid s :
  user_data (ensure_user uid s) !! uid
  = Some (default default_record (user_data s !! uid)).
Proof.
  unfold ensure_user. destruct (user_data s !! uid) eqn:Hu; simpl.
  - by rewrite Hu.
  - by rewrite lookup_insert_eq.
Qed.









Lemma settings_command_st uid s : st (settings_command uid s) = s.
Proof. unfold settings_command. repeat case_match; done. Qed.

Lemma prices_command_st e uid s : st (prices_command e uid s) = s.
Proof. unfold prices_command. repeat case_match; done. Qed.

Lemma list_command_st uid s : st (list_command uid s) = s.
Proof. unfold list_command. repeat case_match; done. Qed.






End Preservation.

(** ** Start of the process *)

Example first_session_record :
  user_data first_session !! 1 =
    Some {| subscribed_coins := ["bitcoin"]; update_interval := 60;
            is_subscribed := true; job_id := Some "user_1" |}
  ∧ live_timers 1 first_session = 1%nat
  ∧ disk first_session = Some (user_data first_session).
Proof. vm_compute. done. Qed.

Lemma run_bot_jobs save_id s :
  jobs (run_bot save_id s) = <[save_id := save_job]> (jobs s).
Proof. unfold run_bot. by destruct (disk s). Qed.

Lemma run_bot_user_data save_id s :
  user_data (run_bot save_id s) = default ∅ (disk s) ∪ user_data s.
Proof.
  unfold run_bot. destruct (disk s); simpl; [done|].
  by rewrite (left_id ∅ (∪)).
Qed.

(** C1, as the code has it.  At the start of the process [run_bot] restores
    the stored subscriber data and installs one job, the periodic save: the
    startup sequence arms no timer for any subscriber, whatever its record
    says. *)
Theorem startup_installs_only_the_save_job
    (file : option (gmap Z user_record)) (save_id : string) :
  let s := run_bot save_id (fresh_process file) in
  user_data s = default ∅ file ∧
  jobs s = {[ save_id := save_job ]} ∧
  ∀ uid, live_timers uid s = 0%nat.
Proof.
  cbv zeta. split; [|split].
  - rewrite run_bot_user_data. simpl. by rewrite (right_id ∅ (∪)).
  - by rewrite run_bot_jobs.
  - intros uid. unfold live_timers, timers_of. rewrite run_bot_jobs. simpl.
    rewrite insert_empty, map_filter_singleton_False; [apply map_size_empty|].
    by intros [? _].
Qed.

(** C1 fails on the restart scenario: subscriber 1 was active with the
    60-minute interval when the file was written; after the restart the
    record is restored, still active, and no timer is registered for it. *)
Lemma restart_leaves_active_subscriber_without_timer :
  ∃ r, user_data restarted !! 1 = Some r
       ∧ is_subscribed r = true
       ∧ update_interval r = 60
       ∧ job_id r = Some "user_1"
       ∧ live_timers 1 restarted = 0%nat.
Proof. eexists. vm_compute. done. Qed.

(** ** The timer invariant *)







(** ** Activation with an empty watchlist *)

Example empty_watch_session_record :
  user_data empty_watch_session !! 1 = Some default_record.
Proof. vm_compute. done. Qed.

Lemma coins_done_rejects_empty_watchlist :
  dispatch sample_env (CallbackQuery 1 "coins_done") empty_watch_session
  = done empty_watch_session [Answer 1 (Some SelectAtLeastOne)].
Proof. vm_compute. done. Qed.

(** C3 on the code.  Subscriber 1 has picked a coin, pressed "Done", asked
    for the coin keyboard again and cleared the watchlist.  Each of the three
    activation paths then succeeds on the empty watchlist: the flag is set
    and a timer is installed. *)
Lemma activation_with_empty_watchlist :
  let by_interval :=
    dispatch sample_env (CallbackQuery 1 "interval_30") empty_watch_session in
  let asked :=
    st (dispatch sample_env (CallbackQuery 1 "custom_time") empty_watch_session) in
  let by_every := dispatch sample_env (Message 1 "every 5 minutes") asked in
  let by_daily := dispatch sample_env (Message 1 "at 14:30") asked in
  (user_data (st by_interval) !! 1
     = Some {| subscribed_coins := []; update_interval := 30;
               is_subscribed := true; job_id := Some "user_1" |}
   ∧ live_timers 1 (st by_interval) = 1%nat
   ∧ evs by_interval = [EditText 1 (SubscriptionActivated 0 "30 minutes")])
  ∧ (user_data (st by_every) !! 1
     = Some {| subscribed_coins := []; update_interval := 5;
               is_subscribed := true; job_id := Some "user_1" |}
   ∧ live_timers 1 (st by_every) = 1%nat
   ∧ evs by_every = [SendMessage 1 (ScheduledEvery 5)])
  ∧ (user_data (st by_daily) !! 1
     = Some {| subscribed_coins := []; update_interval := 60;
               is_subscribed := true; job_id := Some "user_1_daily" |}
   ∧ live_timers 1 (st by_daily) = 1%nat
   ∧ evs by_daily = [SendMessage 1 (ScheduledDaily 14 30)]).
Proof. vm_compute. done. Qed.

(** ** The report *)

Section Report.
Context {num : Type} `{NumFormat num}.
Implicit Types (prices : snapshot num) (coins : list string).










End Report.



(** C5 on the code.  The watchlist of subscriber 1 holds [tether], which is
    no value of [CRYPTO_OPTIONS], and the snapshot prices it: the look-up of
    the display name raises [IndexError]; the fire logs it and sends no
    report, and the exception escapes [prices_command]. *)
Lemma unknown_asset_in_snapshot_breaks_report :
  (user_data unknown_asset_session !! 1
     = Some {| subscribed_coins := ["bitcoin"; "tether"]; update_interval := 60;
               is_subscribed := true; job_id := Some "user_1" |})
  ∧ ¬ known_coin "tether"
  ∧ is_Some ((get_crypto_prices sample_env ["bitcoin"; "tether"]).1 !! "tether")
  ∧ fire sample_env "user_1" unknown_asset_session
    = done unknown_asset_session [LogError (UpdateFailed 1 IndexError)]
  ∧ dispatch sample_env (Message 1 "/prices") unknown_asset_session
    = crashed unknown_asset_session [] IndexError.
Proof.
  split; [by vm_compute|]. split; [|split; [by vm_compute; eexists|by vm_compute]].
  unfold known_coin. vm_compute. intros Hc.
  repeat (apply elem_of_cons in Hc as [Hc|Hc]; [discriminate Hc|]).
  by apply elem_of_nil in Hc.
Qed.

(** ** Custom schedules that are rejected *)

Section Handlers.
Context {num : Type} `{NumFormat num}.
Implicit Types (e : env num) (s : state).

(** C6.  A custom schedule that denotes an interval below one minute or a
    time of day out of range is answered with the error message of a
    [ValueError], and the state is the one before the message: watchlist,
    stored interval, job handle, flag, job store and FSM state alike. *)
Theorem invalid_custom_schedule_is_rejected e uid text s :
  invalid_schedule text →
  ∃ msg, process_custom_time e uid text s
         = done s [SendMessage uid (CustomTimeError (ValueError msg))].
Proof.
  unfold process_custom_time, custom_time_try.
  intros [(n & -> & Hn)|(h & m & -> & Hhm)].
  - rewrite bool_decide_eq_true_2 by done. simpl. by eexists.
  - rewrite bool_decide_eq_false_2 by done. simpl. by eexists.
Qed.

(** ** Fetch failures *)

Lemma get_crypto_prices_empty e coins :
  http_get e coins = HttpRaised
  ∨ (∃ status body, http_get e coins = HttpResponse status body ∧ status ≠ 200)
  ∨ http_get e coins = HttpResponse 200 None
  ∨ http_get e coins = HttpResponse 200 (Some ∅) →
  (get_crypto_prices e coins).1 = ∅.
Proof.
  unfold get_crypto_prices.
  intros [->|[(status & body & -> & Hs)|[->| ->]]]; simpl; [done| |done..].
  by rewrite bool_decide_eq_false_2.
Qed.

Lemma user_visible_app l1 l2 :
  user_visible (l1 ++ l2) = (user_visible l1 ++ user_visible l2)%list.
Proof. apply filter_app. Qed.

Lemma get_crypto_prices_logs_only e coins :
  user_visible (get_crypto_prices e coins).2 = [].
Proof. unfold get_crypto_prices. repeat case_match; done. Qed.

Lemma send_price_update_empty_fetch e uid s user :
  user_data s !! uid = Some user →
  subscribed_coins user ≠ [] →
  (get_crypto_prices e (subscribed_coins user)).1 = ∅ →
  send_price_update e uid s
  = done s ((get_crypto_prices e (subscribed_coins user)).2
            ++ [SendMessage uid FetchWarning]).
Proof.
  intros Hu Hc Hp. unfold send_price_update. rewrite Hu.
  destruct (subscribed_coins user) as [|c coins] eqn:Hcoins; [done|].
  destruct (get_crypto_prices e (c :: coins)) as [prices logged].
  simpl in Hp. subst prices. by rewrite bool_decide_eq_true_2.
Qed.

(** C7.  When the timer of an active subscriber fires and the price fetch
    yields the empty mapping, the state is unchanged (the record with its
    handle and flag, the job that fired, the number of live timers), no
    exception escapes, and the user sees the warning and nothing else. *)
Theorem failed_fetch_keeps_schedule e id j uid user s :
  jobs s !! id = Some j → is_timer_of uid j →
  user_data s !! uid = Some user → is_subscribed user = true →
  subscribed_coins user ≠ [] →
  (get_crypto_prices e (subscribed_coins user)).1 = ∅ →
  let o := fire e id s in
  st o = s ∧ exc o = None
  ∧ user_visible (evs o) = [SendMessage uid FetchWarning]
  ∧ jobs (st o) !! id = Some j
  ∧ user_data (st o) !! uid = Some user
  ∧ live_timers uid (st o) = live_timers uid s.
Proof.
  intros Hj [Hf Ha] Hu _ Hc Hp. unfold fire. rewrite Hj, Hf, Ha.
  rewrite (send_price_update_empty_fetch e uid s user) by done. simpl.
  rewrite user_visible_app, get_crypto_prices_logs_only. done.
Qed.

(** C10.  Whether the request raised, the status was not 200, the body did
    not decode or the body was the empty mapping, [prices_command] and a
    fire of a subscriber with a watchlist answer with the warning alone. *)
Theorem empty_fetch_is_handled_as_fetch_error e uid s :
  let coins := coins_to_check uid s in
  http_get e coins = HttpRaised
  ∨ (∃ status body, http_get e coins = HttpResponse status body ∧ status ≠ 200)
  ∨ http_get e coins = HttpResponse 200 None
  ∨ http_get e coins = HttpResponse 200 (Some ∅) →
  (let o := prices_command e uid s in
   st o = s ∧ exc o = None ∧ user_visible (evs o) = [SendMessage uid FetchWarning])
  ∧ (∀ user, user_data s !! uid = Some user → subscribed_coins user ≠ [] →
       let o := send_price_update e uid s in
       st o = s ∧ exc o = None
       ∧ user_visible (evs o) = [SendMessage uid FetchWarning]).
Proof.
  intros coins Hcause. apply get_crypto_prices_empty in Hcause. split.
  - unfold prices_command. fold coins.
    destruct (get_crypto_prices e coins) as [prices logged] eqn:Hg.
    simpl in Hcause. subst prices. rewrite bool_decide_eq_true_2 by done.
    simpl. rewrite user_visible_app.
    pose proof (get_crypto_prices_logs_only e coins) as Hl.
    rewrite Hg in Hl. simpl in Hl. by rewrite Hl.
  - intros user Hu Hc.
    assert (coins = subscribed_coins user) as Heq.
    { unfold coins, coins_to_check. rewrite Hu.
      by destruct (subscribed_coins user). }
    rewrite Heq in Hcause.
    rewrite (send_price_update_empty_fetch e uid s user) by done. simpl.
    by rewrite user_visible_app, get_crypto_prices_logs_only.
Qed.

(** ** Unsubscribing *)

(** C9.  Unsubscribing a subscribed user keeps the record and its watchlist;
    it clears the job handle and the flag and removes the job the handle
    named, so the subscriber has no schedule left, and no timer when the
    store satisfied the invariant.  The number kept in [update_interval]
    stays; the other jobs and the other records are untouched. *)
Theorem unsubscribe_clears_schedule_keeps_watchlist uid user s :
  user_data s !! uid = Some user → is_subscribed user = true →
  let o := unsubscribe_command uid s in
  user_data (st o) !! uid
    = Some {| subscribed_coins := subscribed_coins user;
              update_interval := update_interval user;
              is_subscribed := false; job_id := None |}
  ∧ schedule_spec (st o) uid = None
  ∧ (∀ old, truthy (job_id user) = Some old → jobs (st o) !! old = None)
  ∧ (schedule_inv s → live_timers uid (st o) = 0%nat)
  ∧ (∀ id, Some id ≠ truthy (job_id user) → jobs (st o) !! id = jobs s !! id)
  ∧ (∀ other, other ≠ uid → user_data (st o) !! other = user_data s !! other)
  ∧ evs o = [SendMessage uid Unsubscribed].
Proof.
  intros Hu Hact. unfold unsubscribe_command. rewrite Hu, Hact. simpl.
  split; [by rewrite lookup_insert_eq|].
  split; [unfold schedule_spec; simpl; by rewrite lookup_insert_eq|].
  split; [|split; [|split; [|split; [|done]]]].
  - intros old ->. simpl. by rewrite lookup_delete_eq.
  - intros Hinv.
    pose proof (schedule_inv_unsubscribe s uid user Hu Hinv) as Hinv'.
    destruct (schedule_inv_consistent _ uid (set_job None false user) Hinv')
      as (_ & Hone & Hle); [simpl; by rewrite lookup_insert_eq|].
    simpl in Hone.
    destruct (decide (live_timers uid
      (with_users (insert uid (set_job None false user))
         (match truthy (job_id user) with
          | Some old => remove_job old s
          | None => s
          end)) = 1%nat)) as [Heq|Hne].
    + apply Hone in Heq. by destruct Heq.
    + lia.
  - intros id Hid. destruct (truthy (job_id user)) as [old|]; simpl; [|done].
    rewrite lookup_delete_ne; [done|congruence].
  - intros other Hne. rewrite lookup_insert_ne by done.
    by destruct (truthy (job_id user)).
Qed.

End Handlers.

(** Three such texts, and the rejection of one of them. *)
Lemma invalid_custom_schedule_is_rejected_witness :
  invalid_schedule "every 0 minutes" ∧ invalid_schedule "Every -5 hours"
  ∧ invalid_schedule "daily at 25:00"
  ∧ ∃ msg, process_custom_time sample_env 1 "daily at 25:00" first_session
           = done first_session [SendMessage 1 (CustomTimeError (ValueError msg))].
Proof.
  assert (invalid_schedule "daily at 25:00") as Hbad.
  { right. exists 25, 0. split; [vm_compute; reflexivity|lia]. }
  split; [left; exists 0; split; [vm_compute; reflexivity|lia]|].
  split; [left; exists (-300); split; [vm_compute; reflexivity|lia]|].
  split; [exact Hbad|].
  exact (invalid_custom_schedule_is_rejected sample_env 1 "daily at 25:00"
           first_session Hbad).
Defined.

(** ** The watchlist a fire reports on *)

Section Fire.
Context {num : Type} `{NumFormat num}.
Implicit Types (e : env num) (s : state).




Lemma run_cons e x l s : run e (x :: l) s = run e l (st (run_step e x s)).
Proof. done. Qed.



End Fire.

Example two_coin_session_fire :
  ∃ text, fire sample_env "user_1" two_coin_session
          = done two_coin_session [SendMessage 1 (Report text)]
          ∧ text = update_header morning
                   +:+ price_line "Bitcoin" (quote 43210 2)
                   +:+ price_line "Ethereum" (quote 2500 (-1))
                   +:+ update_footer.
Proof. eexists. split; vm_compute; reflexivity. Qed.


(** ** The theorems on the scenarios *)

(** The timer of subscriber 1 fires while the price API is unreachable. *)
Lemma failed_fetch_keeps_schedule_witness :
  let o := fire failing_env "user_1" first_session in
  st o = first_session ∧ exc o = None
  ∧ user_visible (evs o) = [SendMessage 1 FetchWarning]
  ∧ jobs (st o) !! "user_1"
    = Some {| func := SendPriceUpdate; trig := IntervalTrigger 60; args := [1] |}
  ∧ user_data (st o) !! 1
    = Some {| subscribed_coins := ["bitcoin"]; update_interval := 60;
              is_subscribed := true; job_id := Some "user_1" |}
  ∧ live_timers 1 (st o) = live_timers 1 first_session.
Proof.
  apply (failed_fetch_keeps_schedule failing_env "user_1"
           {| func := SendPriceUpdate; trig := IntervalTrigger 60; args := [1] |}
           1
           {| subscribed_coins := ["bitcoin"]; update_interval := 60;
              is_subscribed := true; job_id := Some "user_1" |}
           first_session).
  - vm_compute. reflexivity.
  - split; reflexivity.
  - vm_compute. reflexivity.
  - reflexivity.
  - simpl. discriminate.
  - vm_compute. reflexivity.
Defined.

(** The price API answers 200 with an empty mapping. *)
Lemma empty_fetch_is_handled_as_fetch_error_witness :
  (let o := prices_command empty_env 1 first_session in
   st o = first_session ∧ exc o = None
   ∧ user_visible (evs o) = [SendMessage 1 FetchWarning])
  ∧ (∀ user, user_data first_session !! 1 = Some user →
       subscribed_coins user ≠ [] →
       let o := send_price_update empty_env 1 first_session in
       st o = first_session ∧ exc o = None
       ∧ user_visible (evs o) = [SendMessage 1 FetchWarning]).
Proof.
  apply (empty_fetch_is_handled_as_fetch_error empty_env 1 first_session).
  right. right. right. reflexivity.
Defined.

(** Subscriber 1 of the two-coin session, on the 30-minute schedule,
    unsubscribes. *)
Lemma unsubscribe_clears_schedule_keeps_watchlist_witness :
  schedule_spec two_coin_session 1 = Some (IntervalTrigger 30)
  ∧ let o := unsubscribe_command 1 two_coin_session in
    user_data (st o) !! 1
      = Some {| subscribed_coins := ["bitcoin"; "ethereum"]; update_interval := 30;
                is_subscribed := false; job_id := None |}
    ∧ schedule_spec (st o) 1 = None
    ∧ jobs (st o) !! "user_1" = None.
Proof.
  split; [vm_compute; reflexivity|].
  destruct (unsubscribe_clears_schedule_keeps_watchlist 1
              {| subscribed_coins := ["bitcoin"; "ethereum"]; update_interval := 30;
                 is_subscribed := true; job_id := Some "user_1" |}
              two_coin_session) as (Hrec & Hspec & Hgone & _).
  - vm_compute. reflexivity.
  - reflexivity.
  - split; [exact Hrec|]. split; [exact Hspec|]. apply Hgone. reflexivity.
Defined.

(** The interval chosen before unsubscribing stays in the record. *)
Example unsubscribe_leaves_stored_interval :
  let s := st (unsubscribe_command 1 two_coin_session) in
  ∃ r, user_data s !! 1 = Some r
       ∧ is_subscribed r = false ∧ job_id r = None
       ∧ update_interval r = 30.
Proof. eexists. vm_compute. repeat split. Qed.

(** ** Strings of one kind of character *)

Lemma string_all_app P s t :
  string_all P (s +:+ t) = string_all P s && string_all P t.
Proof. induction s as [|c s IH]; simpl; [done|]. by rewrite IH, andb_assoc. Qed.

Lemma string_all_impl (P Q : ascii → bool) s :
  (∀ c, P c = true → Q c = true) → string_all P s = true → string_all Q s = true.
Proof.
  intros HPQ. induction s as [|c s IH]; simpl; [done|].
  intros [Hc Hs]%andb_true_iff. rewrite (HPQ c Hc). by apply IH.
Qed.

Lemma pretty_N_char_decimal x : decimal_char (pretty_N_char x) = true.
Proof. unfold pretty_N_char. by repeat case_match. Qed.

Lemma pretty_N_go_decimal x s :
  string_all decimal_char s = true → string_all decimal_char (pretty_N_go x s) = true.
Proof.
  revert s. induction (N.lt_wf_0 x) as [x _ IH]; intros s Hs.
  destruct (decide (x = 0)%N) as [->|Hx]; [by rewrite pretty_N_go_0|].
  rewrite pretty_N_go_step by lia. apply IH.
  - apply N.div_lt; lia.
  - simpl. by rewrite pretty_N_char_decimal.
Qed.

Lemma pretty_N_decimal (x : N) : string_all decimal_char (pretty x) = true.
Proof.
  unfold pretty, pretty_N. case_decide; [done|]. by apply pretty_N_go_decimal.
Qed.

Lemma pretty_Z_decimal (x : Z) : string_all decimal_char (pretty x) = true.
Proof.
  destruct x as [|p|p]; [done|apply pretty_N_decimal|].
  change (pretty (Z.neg p)) with ("-" +:+ pretty (N.pos p)).
  rewrite string_all_app. simpl. apply pretty_N_decimal.
Qed.

Lemma decimal_char_cases (Q : ascii → bool) :
  Q "0"%char = true → Q "1"%char = true → Q "2"%char = true →
  Q "3"%char = true → Q "4"%char = true → Q "5"%char = true →
  Q "6"%char = true → Q "7"%char = true → Q "8"%char = true →
  Q "9"%char = true → Q "-"%char = true →
  ∀ c, decimal_char c = true → Q c = true.
Proof.
  intros ??????????? c.
  destruct c as [[] [] [] [] [] [] [] []]; vm_compute; intros; done.
Qed.

Lemma pretty_Z_all (Q : ascii → bool) (x : Z) :
  Q "0"%char = true → Q "1"%char = true → Q "2"%char = true →
  Q "3"%char = true → Q "4"%char = true → Q "5"%char = true →
  Q "6"%char = true → Q "7"%char = true → Q "8"%char = true →
  Q "9"%char = true → Q "-"%char = true →
  string_all Q (pretty x) = true.
Proof.
  intros. eapply string_all_impl; [by apply decimal_char_cases|].
  apply pretty_Z_decimal.
Qed.

(** ** Reversal, stripping, splitting *)

Lemma string_cons_app c (s t : string) : String c s +:+ t = String c (s +:+ t).
Proof. done. Qed.

Lemma string_app_nil_r (s : string) : s +:+ "" = s.
Proof. induction s as [|c s IH]; [done|]. by rewrite string_cons_app, IH. Qed.

Lemma string_app_assoc (a b c : string) : (a +:+ b) +:+ c = a +:+ (b +:+ c).
Proof. induction a as [|x a IH]; [done|]. by rewrite !string_cons_app, IH. Qed.

Lemma rev_acc_app a b acc :
  PyStr.rev_acc (a +:+ b) acc = PyStr.rev_acc b (PyStr.rev_acc a acc).
Proof.
  revert acc. induction a as [|c a IH]; intros acc; [done|].
  rewrite string_cons_app. simpl. apply IH.
Qed.

Lemma rev_acc_app_r s acc t :
  PyStr.rev_acc s acc +:+ t = PyStr.rev_acc s (acc +:+ t).
Proof. revert acc. induction s as [|c s IH]; intros acc; simpl; [done|]. by rewrite IH. Qed.

Lemma rev_rev_acc a cur : PyStr.rev (PyStr.rev_acc a cur) = PyStr.rev cur +:+ a.
Proof.
  revert cur. induction a as [|x a IH]; intros cur; simpl.
  - by rewrite string_app_nil_r.
  - rewrite IH. unfold PyStr.rev. simpl. by rewrite !rev_acc_app_r.
Qed.

Lemma rev_involutive s : PyStr.rev (PyStr.rev s) = s.
Proof. unfold PyStr.rev at 2. by rewrite rev_rev_acc. Qed.

Lemma string_all_rev_acc P a acc :
  string_all P (PyStr.rev_acc a acc) = string_all P a && string_all P acc.
Proof.
  revert acc. induction a as [|c a IH]; intros acc; simpl; [done|].
  rewrite IH. simpl. by destruct (P c), (string_all P a).
Qed.

Lemma lstrip_no_space s : string_all not_space s = true → PyStr.lstrip s = s.
Proof.
  destruct s as [|c s]; simpl; [done|]. unfold not_space.
  by destruct (PyStr.is_space c).
Qed.

Lemma strip_no_space s : string_all not_space s = true → PyStr.strip s = s.
Proof.
  intros Hs. unfold PyStr.strip. rewrite (lstrip_no_space s Hs).
  rewrite lstrip_no_space; [apply rev_involutive|].
  unfold PyStr.rev. by rewrite string_all_rev_acc, Hs.
Qed.

Lemma prefix_empty s : String.prefix "" s = true.
Proof. by destruct s. Qed.

Lemma prefix_other_than c sep x s :
  other_than c x = true → String.prefix (String c sep) (String x s) = false.
Proof.
  unfold other_than. intros Hx. simpl. destruct (ascii_dec c x) as [->|]; [|done].
  by rewrite Ascii.eqb_refl in Hx.
Qed.

Lemma split_go_cons sep cur c s :
  PyStr.split_go sep 0 cur (String c s)
  = if String.prefix sep (String c s)
    then PyStr.rev cur :: PyStr.split_go sep (String.length sep - 1) "" s
    else PyStr.split_go sep 0 (String c cur) s.
Proof. done. Qed.

(** A string in which the first character of the separator does not occur
    is one piece. *)
Lemma split_go_one_piece c sep a cur :
  string_all (other_than c) a = true →
  PyStr.split_go (String c sep) 0 cur a = [PyStr.rev cur +:+ a].
Proof.
  revert cur. induction a as [|x a IH]; intros cur.
  - intros _. simpl. by rewrite string_app_nil_r.
  - simpl string_all. intros [Hx Ha]%andb_true_iff.
    rewrite split_go_cons, prefix_other_than by done. rewrite IH by done.
    f_equal. unfold PyStr.rev. simpl. by rewrite !rev_acc_app_r.
Qed.

(** Up to the first occurrence of a one-character separator. *)
Lemma split_go_char c a b cur :
  string_all (other_than c) a = true →
  PyStr.split_go (String c "") 0 cur (a +:+ String c b)
  = (PyStr.rev cur +:+ a) :: PyStr.split_go (String c "") 0 "" b.
Proof.
  revert cur. induction a as [|x a IH]; intros cur.
  - intros _. change ("" +:+ String c b) with (String c b).
    rewrite split_go_cons. simpl String.prefix.
    destruct (ascii_dec c c); [|done].
    by rewrite prefix_empty, string_app_nil_r.
  - simpl string_all. intros [Hx Ha]%andb_true_iff.
    rewrite string_cons_app, split_go_cons.
    rewrite prefix_other_than by done. rewrite IH by done.
    f_equal. unfold PyStr.rev. simpl. by rewrite !rev_acc_app_r.
Qed.



Lemma pretty_N_go_nonempty x s : s ≠ "" → pretty_N_go x s ≠ "".
Proof.
  revert s. induction (N.lt_wf_0 x) as [x _ IH]; intros s Hs.
  destruct (decide (x = 0)%N) as [->|Hx]; [by rewrite pretty_N_go_0|].
  rewrite pretty_N_go_step by lia. apply IH; [apply N.div_lt; lia|done].
Qed.

Lemma pretty_Z_nonempty (x : Z) : pretty x ≠ "".
Proof.
  assert (∀ n : N, pretty n ≠ "") as HN.
  { intros n. unfold pretty, pretty_N. case_decide; [done|].
    rewrite pretty_N_go_step by lia. by apply pretty_N_go_nonempty. }
  destruct x as [|p|p]; [done|apply HN|done].
Qed.

(** ** [int(str(n))] *)

Lemma digit_of_pretty_N_char d :
  (d < 10)%N → PyStr.digit_of (pretty_N_char d) = Some (Z.of_N d).
Proof.
  intros Hd.
  assert (d = 0 ∨ d = 1 ∨ d = 2 ∨ d = 3 ∨ d = 4 ∨ d = 5 ∨ d = 6 ∨ d = 7
          ∨ d = 8 ∨ d = 9)%N as Hcases by lia.
  repeat (destruct Hcases as [->|Hcases]; [done|]). by subst.
Qed.

Lemma pretty_N_go_digits x s :
  string_all digit_char s = true → string_all digit_char (pretty_N_go x s) = true.
Proof.
  revert s. induction (N.lt_wf_0 x) as [x _ IH]; intros s Hs.
  destruct (decide (x = 0)%N) as [->|Hx]; [by rewrite pretty_N_go_0|].
  rewrite pretty_N_go_step by lia. apply IH; [apply N.div_lt; lia|].
  simpl. unfold digit_char at 1.
  rewrite digit_of_pretty_N_char; [done|]. by apply N.mod_lt.
Qed.

Lemma pretty_N_digits (x : N) : string_all digit_char (pretty x) = true.
Proof.
  unfold pretty, pretty_N. case_decide; [done|]. by apply pretty_N_go_digits.
Qed.

(** Reading the digits that [pretty] wrote: the digits of [x] are appended
    to what was read before. *)
Lemma digits_go_pretty_N_go x :
  (0 < x)%N →
  ∃ m, ∀ s acc b,
    PyStr.digits_go b acc (pretty_N_go x s)
    = PyStr.digits_go true (acc * m + Z.of_N x) s.
Proof.
  induction (N.lt_wf_0 x) as [x _ IH]. intros Hx.
  destruct (decide (x < 10)%N) as [Hsmall|Hbig].
  - exists 10. intros s acc b. rewrite pretty_N_go_step by done.
    rewrite N.div_small, pretty_N_go_0, N.mod_small by done.
    simpl. rewrite digit_of_pretty_N_char by done. f_equal. lia.
  - destruct (IH (x `div` 10)%N) as [m Hm].
    { apply N.div_lt; lia. }
    { apply N.div_str_pos. lia. }
    exists (10 * m). intros s acc b. rewrite pretty_N_go_step by done.
    rewrite Hm. simpl.
    rewrite digit_of_pretty_N_char by (by apply N.mod_lt).
    f_equal. rewrite (N.div_mod x 10) at 3 by done. lia.
Qed.

Lemma digits_go_pretty_N (x : N) :
  PyStr.digits_go false 0 (pretty x) = Some (Z.of_N x).
Proof.
  unfold pretty, pretty_N. case_decide as Hx; [by subst|].
  destruct (digits_go_pretty_N_go x) as [m Hm]; [lia|].
  rewrite Hm. simpl. done.
Qed.

(** A string that does not begin with a sign is read as its digits. *)
Lemma py_int_unsigned s :
  string_all digit_char s = true →
  PyStr.py_int s = PyStr.digits_go false 0 s.
Proof.
  intros Hs. unfold PyStr.py_int.
  rewrite strip_no_space.
  - destruct s as [|c d]; [done|]. simpl in Hs.
    apply andb_true_iff in Hs as [Hc _].
    destruct c as [[] [] [] [] [] [] [] []]; try done.
  - revert Hs. apply string_all_impl. intros c.
    destruct c as [[] [] [] [] [] [] [] []]; by vm_compute.
Qed.

Lemma int_of_pretty (n : Z) : int_of (pretty n) = Ok n.
Proof.
  unfold int_of. destruct n as [|p|p].
  - done.
  - change (pretty (Z.pos p)) with (pretty (N.pos p)).
    by rewrite py_int_unsigned, digits_go_pretty_N by apply pretty_N_digits.
  - change (pretty (Z.neg p)) with (String "-"%char (pretty (N.pos p))).
    unfold PyStr.py_int. rewrite strip_no_space.
    + by rewrite digits_go_pretty_N.
    + apply (pretty_Z_all not_space (Z.neg p)); done.
Qed.

(** ** The layout of the coin keyboard *)

Lemma append_last_snoc b (init : list (list button)) (last : list button) :
  append_last b (init ++ [last]) = (init ++ [(last ++ [b])%list])%list.
Proof.
  induction init as [|row init IH]; [done|].
  simpl. rewrite IH. by destruct init.
Qed.

Lemma coin_rows_built selected_coins (options : list (string * string)) :
  rows_built (coin_button selected_coins <$> options)
             (coin_rows selected_coins options).
Proof.
  unfold coin_rows.
  induction options as [|option options IH] using rev_ind.
  { split; [done|]. split; [constructor|done]. }
  rewrite imap_app, foldl_app. simpl. rewrite Nat.add_0_r.
  set (rows := foldl (coin_rows_step selected_coins) []
                 (imap (λ i kv, (i, kv)) options)) in *.
  destruct IH as (Hcat & Hlen & Hlast).
  rewrite fmap_app. simpl. unfold rows_built.
  rewrite length_app, length_fmap. simpl.
  rewrite length_fmap in Hlast.
  replace (List.length options + 1)%nat with (S (List.length options)) by lia.
  case_bool_decide as Hmod.
  - rewrite append_last_snoc. simpl.
    split; [by rewrite concat_app, Hcat|].
    split.
    + apply Forall_app. split; [done|]. constructor; [simpl; lia|constructor].
    + exists rows, [coin_button selected_coins option].
      split; [done|]. simpl. by rewrite Hmod.
  - destruct (List.length options) as [|k] eqn:Hk; [done|].
    destruct Hlast as (init & last & Hrows & Hl).
    rewrite Hrows, append_last_snoc.
    assert (S k mod 3 = S (k mod 3))%nat as Hstep.
    { pose proof (Nat.mod_upper_bound k 3 ltac:(lia)) as Hub.
      pose proof (Nat.div_mod_eq k 3) as Hdm.
      destruct (decide (k mod 3 = 2)%nat) as [Htwo|Hnot].
      - exfalso. apply Hmod. symmetry.
        apply (Nat.mod_unique (S k) 3 (S (k `div` 3)) 0); lia.
      - symmetry. apply (Nat.mod_unique (S k) 3 (k `div` 3) (S (k mod 3))); lia. }
    split; [|split].
    + rewrite <-Hcat, Hrows, !concat_app. simpl. by rewrite !app_nil_r, app_assoc.
    + rewrite Hrows in Hlen. apply Forall_app in Hlen as [Hinit Hl'].
      apply Forall_app. split; [done|]. constructor; [|constructor].
      rewrite length_app. simpl.
      pose proof (Nat.mod_upper_bound (S k) 3 ltac:(lia)). lia.
    + exists init, (last ++ [coin_button selected_coins option])%list.
      split; [done|].
      change (2 - (Nat.divmod (S k) 2 0 2).2)%nat with (S k mod 3)%nat.
      rewrite length_app, Hstep, Hl. simpl. lia.
Qed.

(** The coin rows of [create_coin_selection_keyboard], over any table of
    options: read row by row they are the buttons of the options in the
    order of the table, and every row holds one to three buttons. *)
Theorem coin_keyboard_layout selected_coins (options : list (string * string)) :
  List.concat (coin_rows selected_coins options) = coin_button selected_coins <$> options
  ∧ Forall (λ row : list button, (1 ≤ List.length row ≤ 3)%nat)
           (coin_rows selected_coins options).
Proof.
  destruct (coin_rows_built selected_coins options) as (Hcat & Hlen & _). done.
Qed.

(** ** Texts built around a number *)

Lemma string_nil_app (t : string) : "" +:+ t = t.
Proof. done. Qed.

Lemma digit_char_impl (Q : ascii → bool) :
  Q "0"%char = true → Q "1"%char = true → Q "2"%char = true →
  Q "3"%char = true → Q "4"%char = true → Q "5"%char = true →
  Q "6"%char = true → Q "7"%char = true → Q "8"%char = true →
  Q "9"%char = true →
  ∀ s, string_all digit_char s = true → string_all Q s = true.
Proof.
  intros ?????????? s. apply string_all_impl. intros c.
  destruct c as [[] [] [] [] [] [] [] []]; vm_compute; intros; done.
Qed.

Lemma lower_app a b : PyStr.lower (a +:+ b) = PyStr.lower a +:+ PyStr.lower b.
Proof. induction a as [|c a IH]; [done|]. rewrite string_cons_app. simpl. by rewrite IH. Qed.

Lemma lower_digits s : string_all digit_char s = true → PyStr.lower s = s.
Proof.
  induction s as [|c s IH]; [done|]. simpl. intros [Hc Hs]%andb_true_iff.
  rewrite IH by done. f_equal.
  destruct c as [[] [] [] [] [] [] [] []]; by vm_compute in Hc |- *.
Qed.






Lemma contains_app_r p a b : PyStr.contains p b = true → PyStr.contains p (a +:+ b) = true.
Proof.
  intros Hb. induction a as [|x a IH]; [done|]. rewrite string_cons_app.
  change (PyStr.contains p (String x (a +:+ b)))
    with (String.prefix p (String x (a +:+ b)) || PyStr.contains p (a +:+ b)).
  rewrite IH. apply orb_true_r.
Qed.

(** ["at H:M"] and ["daily at H:M"], [H] and [M] written in digits. *)
Lemma parse_at_time (daily : bool) hs ms h m :
  string_all digit_char hs = true → int_of hs = Ok h →
  string_all digit_char ms = true → int_of ms = Ok m →
  parse_custom_time ((if daily then "daily at " else "at ") +:+ hs +:+ ":" +:+ ms)
  = Ok (DailyAt h m).
Proof.
  intros Hhd Hh Hmd Hm.
  assert (string_all (other_than "a") (hs +:+ ":" +:+ ms) = true) as Hno_a.
  { rewrite !string_all_app, andb_true_iff. split.
    - revert Hhd. by apply digit_char_impl.
    - simpl. revert Hmd. by apply digit_char_impl. }
  assert (string_all not_space (hs +:+ ":" +:+ ms) = true) as Hno_sp.
  { rewrite !string_all_app, andb_true_iff. split.
    - revert Hhd. by apply digit_char_impl.
    - simpl. revert Hmd. by apply digit_char_impl. }
  assert (PyStr.contains ":" (hs +:+ ":" +:+ ms) = true) as Hcolon.
  { apply contains_app_r. simpl. by rewrite prefix_empty. }
  assert (PyStr.split ":" (hs +:+ ":" +:+ ms) = [hs; ms]) as Hsplit.
  { unfold PyStr.split.
    change (hs +:+ ":" +:+ ms) with (hs +:+ String ":"%char ms).
    rewrite split_go_char by (revert Hhd; by apply digit_char_impl).
    rewrite split_go_one_piece by (revert Hmd; by apply digit_char_impl).
    done. }
  assert (parse_at ((if daily then "daily at " else "at ") +:+ hs +:+ ":" +:+ ms)
          = Ok (h, m)) as Hparse.
  { unfold parse_at.
    assert (PyStr.split "at "
              ((if daily then "daily at " else "at ") +:+ hs +:+ ":" +:+ ms)
            = [if daily then "daily " else ""; hs +:+ ":" +:+ ms]) as ->.
    { unfold PyStr.split.
      destruct daily; rewrite !string_cons_app, string_nil_app.
      - do 6 (rewrite split_go_cons; simpl String.prefix).
        rewrite split_go_cons. simpl String.prefix. rewrite prefix_empty.
        simpl PyStr.split_go. by rewrite split_go_one_piece.
      - rewrite split_go_cons. simpl String.prefix. rewrite prefix_empty.
        simpl PyStr.split_go. by rewrite split_go_one_piece. }
    simpl. rewrite strip_no_space by done.
    rewrite Hcolon, Hsplit. simpl. by rewrite Hh, Hm. }
  unfold parse_custom_time, PyStr.startswith.
  assert (String.prefix "every "
            ((if daily then "daily at " else "at ") +:+ hs +:+ ":" +:+ ms) = false)
    as -> by (by destruct daily).
  assert (PyStr.contains "at "
            ((if daily then "daily at " else "at ") +:+ hs +:+ ":" +:+ ms) = true)
    as ->.
  { destruct daily; rewrite !string_cons_app, string_nil_app;
      simpl; by rewrite prefix_empty. }
  by rewrite Hparse.
Qed.

(** ** Across restarts *)

Lemma job_ids_disjoint h u v :
  (h = interval_job_id u ∨ h = daily_job_id u) →
  (h = interval_job_id v ∨ h = daily_job_id v) → u = v.
Proof.
  intros [->| ->] [Hv|Hv].
  - by apply interval_job_id_inj.
  - by apply interval_ne_daily in Hv.
  - symmetry in Hv. by apply interval_ne_daily in Hv.
  - by apply daily_job_id_inj.
Qed.

Lemma store_inv_ext s s' :
  user_data s' = user_data s → jobs s' = jobs s →
  store_inv s → store_inv s'.
Proof.
  intros Hu Hj [H1 H2].
  split; unfold timer_at; rewrite ?Hu, ?Hj; auto.
Qed.

Lemma store_inv_record s uid r r' :
  user_data s !! uid = Some r →
  job_id r' = job_id r → is_subscribed r' = is_subscribed r →
  store_inv s → store_inv (with_users (insert uid r') s).
Proof.
  intros Hr Hj Hs [H1 H2]. split; simpl.
  - intros u q. destruct (decide (u = uid)) as [->|Hne].
    + rewrite lookup_insert_eq. intros [= <-].
      unfold record_well_formed. rewrite Hj, Hs. by apply H1.
    + rewrite lookup_insert_ne by done. apply H1.
  - intros id u Ht. destruct (H2 id u Ht) as (q & Hq & Hid).
    destruct (decide (u = uid)) as [->|Hne].
    + exists r'. rewrite lookup_insert_eq. split; [done|]. congruence.
    + exists q. by rewrite lookup_insert_ne.
Qed.

Lemma store_inv_new_user s uid :
  user_data s !! uid = None →
  store_inv s → store_inv (with_users (insert uid default_record) s).
Proof.
  intros Hr [H1 H2]. split; simpl.
  - intros u q. destruct (decide (u = uid)) as [->|Hne].
    + rewrite lookup_insert_eq. by intros [= <-].
    + rewrite lookup_insert_ne by done. apply H1.
  - intros id u Ht. destruct (H2 id u Ht) as (q & Hq & Hid).
    exists q. split; [|done]. rewrite lookup_insert_ne; [done|]. congruence.
Qed.

(** Dropping the job a record names, live or not, takes away the timers of
    that subscriber and no other. *)
Lemma store_timer_at_remove s uid r id u :
  store_inv s → user_data s !! uid = Some r →
  timer_at (match truthy (job_id r) with
            | Some old => remove_job old s
            | None => s
            end) id u ↔ timer_at s id u ∧ u ≠ uid.
Proof.
  intros [H1 H2] Hr. pose proof (H1 uid r Hr) as Hwf.
  unfold record_well_formed in Hwf.
  destruct (job_id r) as [h|] eqn:Hh.
  - destruct Hwf as [_ Hname].
    rewrite (truthy_job_id h uid) by done.
    unfold timer_at; simpl. split.
    + intros (j & Hj & Hu). apply lookup_delete_Some in Hj as [Hne Hj].
      split; [eauto|]. intros ->.
      destruct (H2 id uid) as (q & Hq & Hid); [by exists j|]. congruence.
    + intros [(j & Hj & Hu) Hne]. exists j. split; [|done].
      rewrite lookup_delete_ne; [done|]. intros <-.
      destruct (H2 h u) as (q & Hq & Hid); [by exists j|].
      pose proof (H1 u q Hq) as Hwf'. unfold record_well_formed in Hwf'.
      rewrite Hid in Hwf'. destruct Hwf' as [_ Hname'].
      apply Hne. by eapply job_ids_disjoint.
  - simpl. split; [|tauto]. intros Ht. split; [done|]. intros ->.
    destruct (H2 id uid Ht) as (q & Hq & Hid). congruence.
Qed.

Lemma install_timer_at s uid r new_id t id u :
  store_inv s → user_data s !! uid = Some r →
  timer_at (install_job uid r new_id t s) id u
  ↔ (id = new_id ∧ u = uid) ∨ (id ≠ new_id ∧ timer_at s id u ∧ u ≠ uid).
Proof.
  intros Hinv Hr. unfold install_job, timer_at at 1; simpl.
  destruct (decide (id = new_id)) as [->|Hne].
  - rewrite lookup_insert_eq. split.
    + intros (j & [= <-] & _ & Hu). simpl in Hu. left. split; [done|congruence].
    + intros [[_ ->]|[? _]]; [|done]. eexists. split; [done|]. by split.
  - rewrite lookup_insert_ne by done.
    pose proof (store_timer_at_remove s uid r id u Hinv Hr) as Hrm.
    unfold timer_at at 1 in Hrm. rewrite Hrm. tauto.
Qed.

Lemma install_user_data s uid r new_id t :
  user_data (install_job uid r new_id t s)
  = <[uid := set_job (Some new_id) true r]> (user_data s).
Proof. unfold install_job. simpl. by destruct (truthy (job_id r)). Qed.

Lemma install_disk s uid r new_id t : disk (install_job uid r new_id t s) = disk s.
Proof. unfold install_job. simpl. by destruct (truthy (job_id r)). Qed.

Lemma store_inv_install s uid r new_id t :
  user_data s !! uid = Some r →
  new_id = interval_job_id uid ∨ new_id = daily_job_id uid →
  store_inv s → store_inv (install_job uid r new_id t s).
Proof.
  intros Hr Hnew Hinv. pose proof Hinv as [H1 H2]. split.
  - intros u q. rewrite install_user_data.
    destruct (decide (u = uid)) as [->|Hne].
    + rewrite lookup_insert_eq. by intros [= <-].
    + rewrite lookup_insert_ne by done. apply H1.
  - intros id u. rewrite install_timer_at, install_user_data by done.
    intros [[-> ->]|(Hne & Ht & Hu)].
    + eexists. by rewrite lookup_insert_eq.
    + rewrite lookup_insert_ne by done. by apply H2.
Qed.

Lemma store_inv_unsubscribe s uid r :
  user_data s !! uid = Some r → store_inv s →
  store_inv (with_users (insert uid (set_job None false r))
               (match truthy (job_id r) with
                | Some old => remove_job old s
                | None => s
                end)).
Proof.
  intros Hr Hinv. pose proof Hinv as [H1 H2].
  pose proof (store_timer_at_remove s uid r) as Hrm.
  assert (∀ s1 : state, user_data (match truthy (job_id r) with
                           | Some old => remove_job old s
                           | None => s
                           end) = user_data s) as Hu1
    by (intros _; by destruct (truthy (job_id r))).
  split.
  - intros u q. simpl. destruct (decide (u = uid)) as [->|Hne].
    + rewrite lookup_insert_eq. by intros [= <-].
    + rewrite lookup_insert_ne, (Hu1 s) by done. apply H1.
  - intros id u Ht.
    assert (timer_at s id u ∧ u ≠ uid) as [Ht' Hne] by (by apply Hrm).
    simpl. rewrite lookup_insert_ne, (Hu1 s) by done. by apply H2.
Qed.

Lemma handle_live_ext s s' v :
  user_data s' = user_data s → jobs s' = jobs s →
  handle_live s v → handle_live s' v.
Proof. unfold handle_live, timer_at. intros -> ->. auto. Qed.

Lemma handle_live_record s uid r r' v :
  user_data s !! uid = Some r → job_id r' = job_id r →
  handle_live s v → handle_live (with_users (insert uid r') s) v.
Proof.
  intros Hr Hj Hl q h. simpl. destruct (decide (v = uid)) as [->|Hne].
  - rewrite lookup_insert_eq. intros [= <-] Hh. apply (Hl r h Hr). congruence.
  - rewrite lookup_insert_ne by done. apply Hl.
Qed.

Lemma handle_live_new_user s uid v :
  user_data s !! uid = None →
  handle_live s v → handle_live (with_users (insert uid default_record) s) v.
Proof.
  intros Hr Hl q h. simpl. destruct (decide (v = uid)) as [->|Hne].
  - rewrite lookup_insert_eq. by intros [= <-].
  - rewrite lookup_insert_ne by done. apply Hl.
Qed.

Lemma handle_live_install s uid r new_id t v :
  user_data s !! uid = Some r →
  new_id = interval_job_id uid ∨ new_id = daily_job_id uid →
  store_inv s → (v ≠ uid → handle_live s v) →
  handle_live (install_job uid r new_id t s) v.
Proof.
  intros Hr Hnew Hinv Hl q h. rewrite install_user_data.
  rewrite install_timer_at by done.
  destruct (decide (v = uid)) as [->|Hne].
  - rewrite lookup_insert_eq. intros [= <-] [= <-]. by left.
  - rewrite lookup_insert_ne by done. intros Hq Hh. right.
    split; [|split; [by apply (Hl Hne q)|done]].
    intros ->. apply Hne.
    pose proof (store_records s Hinv v q Hq) as Hwf.
    unfold record_well_formed in Hwf. rewrite Hh in Hwf.
    destruct Hwf as [_ Hname]. by eapply job_ids_disjoint.
Qed.

Lemma handle_live_unsubscribe s uid r v :
  user_data s !! uid = Some r → store_inv s → (v ≠ uid → handle_live s v) →
  handle_live (with_users (insert uid (set_job None false r))
                 (match truthy (job_id r) with
                  | Some old => remove_job old s
                  | None => s
                  end)) v.
Proof.
  intros Hr Hinv Hl q h.
  pose proof (store_timer_at_remove s uid r h v Hinv Hr) as Hrm.
  unfold timer_at in *. simpl.
  destruct (decide (v = uid)) as [->|Hne].
  - rewrite lookup_insert_eq. by intros [= <-].
  - rewrite lookup_insert_ne by done. intros Hq Hh. apply Hrm.
    split; [|done]. apply (Hl Hne q h); [|done].
    by destruct (truthy (job_id r)).
Qed.

(** Under the store invariant, a record is consistent with the timers
    exactly when its handle, if any, is live. *)
Lemma timers_of_handle s uid r :
  store_inv s → user_data s !! uid = Some r →
  timers_of uid s
  = match job_id r with
    | Some h => match jobs s !! h with
                | Some j => if bool_decide (is_timer_of uid j)
                            then {[ h := j ]} else ∅
                | None => ∅
                end
    | None => ∅
    end.
Proof.
  intros Hinv Hr. apply map_eq. intros id. unfold timers_of.
  destruct (filter _ (jobs s) !! id) as [j|] eqn:Hf.
  - apply map_lookup_filter_Some in Hf as [Hj Ht]. simpl in Ht.
    destruct (store_owner s Hinv id uid) as (q & Hq & Hid); [by exists j|].
    assert (q = r) as -> by congruence. rewrite Hid, Hj.
    rewrite bool_decide_eq_true_2 by done. by rewrite lookup_singleton_eq.
  - symmetry. destruct (job_id r) as [h|]; [|done].
    destruct (jobs s !! h) as [j|] eqn:Hj; [|done].
    case_bool_decide as Ht; [|done].
    apply lookup_singleton_None. intros <-.
    assert (filter (λ kv, is_timer_of uid kv.2) (jobs s) !! h = Some j) as Hin
      by (by apply map_lookup_filter_Some).
    congruence.
Qed.

Lemma live_timers_at_most_one s uid r :
  store_inv s → user_data s !! uid = Some r →
  (live_timers uid s ≤ 1)%nat
  ∧ (live_timers uid s = 1%nat ↔ ∃ h, job_id r = Some h ∧ timer_at s h uid).
Proof.
  intros Hinv Hr. unfold live_timers. rewrite (timers_of_handle s uid r) by done.
  unfold timer_at. destruct (job_id r) as [h|].
  - destruct (jobs s !! h) as [j|] eqn:Hj.
    + case_bool_decide as Ht.
      * rewrite map_size_singleton. split; [lia|]. split; [|done].
        intros _. exists h. split; [done|]. by exists j.
      * rewrite map_size_empty. split; [lia|]. split; [done|].
        intros (h' & [= <-] & j' & Hj' & Ht'). congruence.
    + rewrite map_size_empty. split; [lia|]. split; [done|].
      intros (h' & [= <-] & j' & Hj' & Ht'). congruence.
  - rewrite map_size_empty. split; [lia|]. split; [done|].
    by intros (h' & [=] & _).
Qed.


Lemma settled_ext L s s' :
  user_data s' = user_data s → jobs s' = jobs s →
  settled L s → settled L s'.
Proof.
  intros Hu Hj (Hinv & Hl).
  split; [by apply (store_inv_ext s)|].
  intros v Hv; apply (handle_live_ext s); auto.
Qed.

Lemma settled_record L s uid r r' :
  user_data s !! uid = Some r →
  job_id r' = job_id r → is_subscribed r' = is_subscribed r →
  settled L s → settled L (with_users (insert uid r') s).
Proof.
  intros Hr Hj Hs (Hinv & Hl).
  split; [by eapply store_inv_record|].
  intros v Hv; eapply handle_live_record; eauto.
Qed.

Lemma settled_new_user L s uid :
  user_data s !! uid = None →
  settled L s → settled L (with_users (insert uid default_record) s).
Proof.
  intros Hr (Hinv & Hl).
  split; [by apply store_inv_new_user|].
  intros v Hv; apply handle_live_new_user; auto.
Qed.

Lemma settled_install L s uid r new_id t :
  user_data s !! uid = Some r →
  new_id = interval_job_id uid ∨ new_id = daily_job_id uid →
  settled L s → settled L (install_job uid r new_id t s).
Proof.
  intros Hr Hnew (Hinv & Hl).
  split; [by apply store_inv_install|].
  intros v Hv; apply handle_live_install; auto.
Qed.

Lemma settled_unsubscribe L s uid r :
  user_data s !! uid = Some r → settled L s →
  settled L (with_users (insert uid (set_job None false r))
               (match truthy (job_id r) with
                | Some old => remove_job old s
                | None => s
                end)).
Proof.
  intros Hr (Hinv & Hl).
  split; [by apply store_inv_unsubscribe|].
  intros v Hv; apply handle_live_unsubscribe; auto.
Qed.

Section Recovery.
Context {num : Type} `{NumFormat num}.
Implicit Types (e : env num) (s : state).
Variable L : Z → Prop.

Lemma settled_fsm f s : settled L s → settled L (with_fsm f s).
Proof. by apply settled_ext. Qed.

Lemma settled_ensure_user uid s : settled L s → settled L (ensure_user uid s).
Proof.
  intros Hinv. unfold ensure_user.
  destruct (user_data s !! uid) eqn:Hu; [done|].
  by apply settled_new_user.
Qed.

Lemma subscribe_command_settled uid s :
  settled L s → settled L (st (subscribe_command uid s)).
Proof.
  intros Hinv. unfold subscribe_command.
  case_match; simpl; [|apply settled_fsm]; by apply settled_ensure_user.
Qed.

Lemma coin_selection_callback_settled uid data s :
  settled L s → settled L (st (coin_selection_callback uid data s)).
Proof.
  intros Hinv. unfold coin_selection_callback.
  destruct (index _ 1) as [coin|err]; simpl; [|done].
  rewrite ensure_user_lookup. simpl.
  eapply settled_record;
    [apply ensure_user_lookup|done|done|by apply settled_ensure_user].
Qed.

Lemma coin_action_callback_settled uid data s :
  settled L s → settled L (st (coin_action_callback uid data s)).
Proof.
  intros Hinv. unfold coin_action_callback.
  destruct (user_data s !! uid) as [user|] eqn:Hu; simpl; [|done].
  repeat case_bool_decide; simpl;
    try (by eapply settled_record); [|done].
  destruct (subscribed_coins user); simpl; [done|by apply settled_fsm].
Qed.

Lemma custom_time_callback_settled uid s :
  settled L s → settled L (st (custom_time_callback uid s)).
Proof. intros. by apply settled_fsm. Qed.

Lemma interval_selection_callback_settled e uid data s :
  settled L s → settled L (st (interval_selection_callback e uid data s)).
Proof.
  intros Hinv. unfold interval_selection_callback.
  destruct (_ ≫= _) as [n|err]; simpl; [|done].
  destruct (user_data s !! uid) as [user|] eqn:Hu; simpl; [|done].
  assert (settled L
            (install_job uid (set_interval n user) (interval_job_id uid)
               (IntervalTrigger n)
               (with_users (insert uid (set_interval n user)) s))) as Hinst.
  { apply settled_install; [by simpl; rewrite lookup_insert_eq|by left|].
    by eapply settled_record. }
  destruct (interval_name n); simpl; [by apply settled_fsm|done].
Qed.

Lemma custom_time_try_settled e uid text s :
  settled L s → settled L (st (custom_time_try e uid text s)).
Proof.
  intros Hinv. unfold custom_time_try.
  destruct (parse_custom_time text) as [[minutes|hour minute]|err]; simpl; [| |done].
  - case_bool_decide; simpl; [done|].
    destruct (user_data s !! uid) as [user|] eqn:Hu; simpl; [|done].
    apply settled_fsm.
    apply settled_install; [by simpl; rewrite lookup_insert_eq|by left|].
    by eapply settled_record.
  - destruct (negb _); simpl; [done|].
    destruct (user_data s !! uid) as [user|] eqn:Hu; simpl; [|done].
    apply settled_fsm. apply settled_install; [done|by right|done].
Qed.

Lemma process_custom_time_settled e uid text s :
  settled L s → settled L (st (process_custom_time e uid text s)).
Proof.
  intros Hinv. unfold process_custom_time.
  pose proof (custom_time_try_settled e uid (PyStr.lower text) s Hinv).
  by destruct (exc _).
Qed.

Lemma unsubscribe_command_settled uid s :
  settled L s → settled L (st (unsubscribe_command uid s)).
Proof.
  intros Hinv. unfold unsubscribe_command.
  destruct (user_data s !! uid) as [user|] eqn:Hu; simpl; [|done].
  destruct (negb _); simpl; [done|]. by apply settled_unsubscribe.
Qed.

Lemma cancel_command_settled uid s :
  settled L s → settled L (st (cancel_command uid s)).
Proof.
  intros Hinv. unfold cancel_command.
  destruct (fsm s !! uid); simpl; [by apply settled_fsm|done].
Qed.

Lemma fire_settled e id s : settled L s → settled L (st (fire e id s)).
Proof.
  intros Hinv. unfold fire.
  repeat case_match; simpl; rewrite ?send_price_update_st; try done.
  by apply (settled_ext L s).
Qed.

Lemma dispatch_settled e u s : settled L s → settled L (st (dispatch e u s)).
Proof.
  intros Hinv. destruct u as [uid text|uid data]; simpl.
  - repeat case_match;
      rewrite ?settings_command_st, ?prices_command_st, ?list_command_st;
      auto using subscribe_command_settled, process_custom_time_settled,
        unsubscribe_command_settled, cancel_command_settled.
  - repeat case_match;
      auto using coin_selection_callback_settled, coin_action_callback_settled,
        interval_selection_callback_settled, custom_time_callback_settled.
Qed.

Lemma run_step_settled e x s : settled L s → settled L (st (run_step e x s)).
Proof. destruct x; [apply dispatch_settled|apply fire_settled]. Qed.

Lemma run_settled e l s : settled L s → settled L (run e l s).
Proof.
  revert s. induction l as [|x l IH]; intros s Hinv; [done|].
  simpl. apply IH. by apply run_step_settled.
Qed.

End Recovery.

Lemma schedule_inv_store s : schedule_inv s → store_inv s.
Proof.
  intros [H1 H2 H3]. split; [|done].
  intros uid r Hr. specialize (H1 uid r Hr). unfold record_well_formed.
  destruct (job_id r) as [h|]; [|done].
  destruct H1 as [Hflag Ht]. split; [done|]. by apply H3.
Qed.

Lemma store_inv_restart save_id s :
  file_ok s →
  store_inv (run_bot save_id (fresh_process (disk s)))
  ∧ file_ok (run_bot save_id (fresh_process (disk s))).
Proof.
  intros Hf. split; [split|].
  - intros uid r. rewrite run_bot_user_data. simpl. rewrite (right_id ∅ (∪)).
    destruct (disk s) as [m|] eqn:Hd; simpl; [by apply (Hf m)|].
    by rewrite lookup_empty.
  - intros id uid (j & Hj & Ht). rewrite run_bot_jobs in Hj. simpl in Hj.
    rewrite insert_empty in Hj. apply lookup_singleton_Some in Hj as [_ <-].
    by destruct Ht.
  - unfold run_bot, fresh_process, file_ok. simpl.
    destruct (disk s) as [m|] eqn:Hd; simpl; [|done].
    intros m' uid r [= <-]. by apply (Hf m).
Qed.

Section Life.
Context {num : Type} `{NumFormat num}.
Implicit Types (e : env num) (s : state).

Lemma run_step_store_inv e x s : store_inv s → store_inv (st (run_step e x s)).
Proof.
  intros Hinv. apply (run_step_settled (λ _, False) e x s). by split.
Qed.

Lemma run_store_inv e l s : store_inv s → store_inv (run e l s).
Proof.
  intros Hinv. apply (run_settled (λ _, False) e l s). by split.
Qed.

Lemma process_custom_time_disk e uid text s :
  disk (st (process_custom_time e uid text s)) = disk s.
Proof.
  assert (disk (st (custom_time_try e uid (PyStr.lower text) s)) = disk s) as Htry.
  { unfold custom_time_try.
    destruct (parse_custom_time _) as [[minutes|hour minute]|err]; simpl; [| |done].
    - case_bool_decide; simpl; [done|].
      destruct (user_data s !! uid); [|done]. etrans; [apply install_disk|done].
    - destruct (negb _); simpl; [done|].
      destruct (user_data s !! uid); [|done]. apply install_disk. }
  unfold process_custom_time. by destruct (exc _).
Qed.

(** Only the save job writes the file, and it writes the records. *)
Lemma dispatch_disk e u s : disk (st (dispatch e u s)) = disk s.
Proof.
  destruct u as [uid text|uid data]; simpl.
  - repeat case_match;
      rewrite ?settings_command_st, ?prices_command_st, ?list_command_st,
        ?process_custom_time_disk;
      try done.
    + unfold subscribe_command, ensure_user. by repeat case_match.
    + unfold unsubscribe_command. repeat case_match; done.
    + unfold cancel_command. by repeat case_match.
  - repeat case_match; try done.
    + unfold coin_selection_callback, ensure_user. by repeat case_match.
    + unfold coin_action_callback.
      by repeat first [case_match|case_bool_decide].
    + unfold interval_selection_callback.
      repeat case_match; try done; (etrans; [apply install_disk|done]).
Qed.

Lemma fire_disk e id s :
  disk (st (fire e id s)) = disk s
  ∨ disk (st (fire e id s)) = Some (user_data s).
Proof.
  unfold fire. repeat case_match; simpl; rewrite ?send_price_update_st; auto.
Qed.

Lemma run_step_file_ok e x s :
  store_inv s → file_ok s → file_ok (st (run_step e x s)).
Proof.
  intros Hinv Hf. unfold file_ok. destruct x as [u|id]; simpl.
  - by rewrite dispatch_disk.
  - destruct (fire_disk e id s) as [->| ->]; [done|].
    intros m uid r [= <-]. apply Hinv.
Qed.

Lemma live_step_inv e x s :
  store_inv s ∧ file_ok s → store_inv (live_step e x s) ∧ file_ok (live_step e x s).
Proof.
  intros [Hinv Hf]. destruct x as [x|save_id]; simpl.
  - split; [by apply run_step_store_inv|by apply run_step_file_ok].
  - by apply store_inv_restart.
Qed.

Lemma live_inv e history s :
  store_inv s ∧ file_ok s →
  store_inv (live e history s) ∧ file_ok (live e history s).
Proof.
  revert s. induction history as [|x l IH]; intros s Hs; [done|].
  simpl. apply IH. by apply live_step_inv.
Qed.

Lemma fresh_inv : store_inv (fresh_process None) ∧ file_ok (fresh_process None).
Proof.
  split; [split|].
  - intros uid r Hr. simpl in Hr. by rewrite lookup_empty in Hr.
  - intros id uid (j & Hj & _). simpl in Hj. by rewrite lookup_empty in Hj.
  - by intros m uid r [=].
Qed.


Lemma live_store_inv e history :
  store_inv (live e history (fresh_process None)).
Proof. apply live_inv, fresh_inv. Qed.

(** Whatever the history of steps and restarts since the first start, a
    stored record has its flag set exactly when it stores a handle, the
    handle is one of the two ids formed from the subscriber's id, the
    subscriber never has two timers, and has one only with the flag set and
    under the stored handle. *)
Theorem records_well_formed_across_restarts e (history : list life_step)
    (uid : Z) (r : user_record) :
  let s := live e history (fresh_process None) in
  user_data s !! uid = Some r →
  (is_subscribed r = true ↔ is_Some (job_id r))
  ∧ (∀ h, job_id r = Some h → h = interval_job_id uid ∨ h = daily_job_id uid)
  ∧ (live_timers uid s ≤ 1)%nat
  ∧ (live_timers uid s = 1%nat ↔ ∃ h, job_id r = Some h ∧ timer_at s h uid)
  ∧ (is_subscribed r = false → live_timers uid s = 0%nat).
Proof.
  intros s Hr.
  pose proof (live_store_inv e history) as Hinv. fold s in Hinv.
  destruct (live_timers_at_most_one s uid r Hinv Hr) as [Hle Hone].
  pose proof (store_records s Hinv uid r Hr) as Hwf.
  unfold record_well_formed in Hwf.
  assert (is_subscribed r = true ↔ is_Some (job_id r)) as Hflag.
  { destruct (job_id r) as [h|].
    - destruct Hwf as [-> _]. split; eauto.
    - rewrite Hwf. split; [done|]. by intros [? [=]]. }
  split; [done|]. split.
  { intros h Hh. rewrite Hh in Hwf. tauto. }
  split; [done|]. split; [done|].
  intros Hoff.
  assert (live_timers uid s ≠ 1%nat); [|lia].
  intros (h & Hh & _)%Hone.
  assert (is_subscribed r = true) by (apply Hflag; eauto). congruence.
Qed.


End Life.

(** The first session, then a restart beside the file it left. *)
Lemma records_well_formed_across_restarts_witness :
  let s := live sample_env
             ([Restart "7f3a"] ++ (Step <$> first_trace) ++ [Restart "c41d"])
             (fresh_process None) in
  let r := {| subscribed_coins := ["bitcoin"]; update_interval := 60;
              is_subscribed := true; job_id := Some "user_1" |} in
  (is_subscribed r = true ↔ is_Some (job_id r))
  ∧ (live_timers 1 s ≤ 1)%nat.
Proof.
  destruct (records_well_formed_across_restarts sample_env
              ([Restart "7f3a"] ++ (Step <$> first_trace) ++ [Restart "c41d"])
              1
              {| subscribed_coins := ["bitcoin"]; update_interval := 60;
                 is_subscribed := true; job_id := Some "user_1" |})
    as (Hf & _ & Hle & _); [vm_compute; reflexivity|].
  cbv zeta. split; [exact Hf|exact Hle].
Defined.


Lemma install_one_timer s uid r new_id t :
  store_inv s → user_data s !! uid = Some r →
  new_id = interval_job_id uid ∨ new_id = daily_job_id uid →
  live_timers uid (install_job uid r new_id t s) = 1%nat.
Proof.
  intros Hinv Hr Hnew.
  pose proof (store_inv_install s uid r new_id t Hr Hnew Hinv) as Hinv'.
  assert (handle_live (install_job uid r new_id t s) uid) as Hl
    by (by apply handle_live_install).
  assert (user_data (install_job uid r new_id t s) !! uid
          = Some (set_job (Some new_id) true r)) as Hr'
    by (by rewrite install_user_data, lookup_insert_eq).
  apply (live_timers_at_most_one _ uid _ Hinv' Hr').
  exists new_id. split; [done|]. by apply (Hl _ _ Hr').
Qed.

Lemma unsubscribe_no_timer s uid r :
  store_inv s → user_data s !! uid = Some r →
  live_timers uid (with_users (insert uid (set_job None false r))
                     (match truthy (job_id r) with
                      | Some old => remove_job old s
                      | None => s
                      end)) = 0%nat.
Proof.
  intros Hinv Hr.
  pose proof (store_inv_unsubscribe s uid r Hr Hinv) as Hinv'.
  destruct (live_timers_at_most_one _ uid (set_job None false r) Hinv')
    as [Hle Hone]; [by simpl; rewrite lookup_insert_eq|].
  match goal with |- ?n = _ => assert (n ≠ 1%nat); [|lia] end.
  by intros (h & [=] & _)%Hone.
Qed.

(** ** Schedules that are accepted *)

Section Accepted.
Context {num : Type} `{NumFormat num}.
Implicit Types (e : env num) (s : state).

Lemma install_job_result uid user id t s :
  let s2 := install_job uid user id t s in
  user_data s2 !! uid = Some (set_job (Some id) true user)
  ∧ jobs s2 !! id = Some {| func := SendPriceUpdate; trig := t; args := [uid] |}
  ∧ schedule_spec s2 uid = Some t.
Proof.
  unfold install_job, schedule_spec. simpl.
  rewrite !lookup_insert_eq. simpl. by rewrite lookup_insert_eq.
Qed.


(** A text that lowers to ["daily at HH:MM"] or ["at HH:MM"], with two
    strings of digits in range, is accepted: nothing is raised, the record
    keeps its interval and stores the flag and the daily handle, the job
    under that handle has the cron trigger of that time, the conversation
    state is cleared, the confirmation is the first event, and under the
    store invariant the subscriber has one timer. *)
Theorem daily_time_is_scheduled e uid text (daily : bool) hs ms h m s user :
  string_all digit_char hs = true → int_of hs = Ok h →
  string_all digit_char ms = true → int_of ms = Ok m →
  PyStr.lower text = (if daily then "daily at " else "at ") +:+ hs +:+ ":" +:+ ms →
  0 ≤ h < 24 → 0 ≤ m < 60 →
  user_data s !! uid = Some user →
  let o := process_custom_time e uid text s in
  exc o = None
  ∧ user_data (st o) !! uid
    = Some {| subscribed_coins := subscribed_coins user;
              update_interval := update_interval user;
              is_subscribed := true; job_id := Some (daily_job_id uid) |}
  ∧ jobs (st o) !! daily_job_id uid
    = Some {| func := SendPriceUpdate; trig := CronTrigger h m; args := [uid] |}
  ∧ schedule_spec (st o) uid = Some (CronTrigger h m)
  ∧ fsm (st o) !! uid = None
  ∧ (store_inv s → live_timers uid (st o) = 1%nat)
  ∧ head (evs o) = Some (SendMessage uid (ScheduledDaily h m)).
Proof.
  intros Hhd Hh Hmd Hm Hlow Hhr Hmr Hu o.
  assert (parse_custom_time (PyStr.lower text) = Ok (DailyAt h m)) as Hparse.
  { rewrite Hlow. by apply parse_at_time. }
  assert (o = done
            (with_fsm (delete uid)
               (install_job uid user (daily_job_id uid) (CronTrigger h m) s))
            (SendMessage uid (ScheduledDaily h m)
             :: evs (send_price_update e uid
                  (install_job uid user (daily_job_id uid) (CronTrigger h m) s))))
    as Ho.
  { unfold o, process_custom_time, custom_time_try. rewrite Hparse.
    rewrite bool_decide_eq_true_2 by done. simpl. by rewrite Hu. }
  destruct (install_job_result uid user (daily_job_id uid) (CronTrigger h m) s)
    as (Hrec & Hjob & Hspec).
  rewrite Ho. simpl.
  split; [done|]. split; [done|]. split; [done|]. split; [done|].
  split; [by rewrite lookup_delete_eq|]. split; [|done].
  intros Hinv. apply install_one_timer; [done|done|by right].
Qed.

End Accepted.


(** Subscriber 1 asks for half past nine every day. *)
Lemma daily_time_is_scheduled_witness :
  let o := process_custom_time sample_env 1 "Daily at 09:30" first_session in
  exc o = None
  ∧ schedule_spec (st o) 1 = Some (CronTrigger 9 30)
  ∧ head (evs o) = Some (SendMessage 1 (ScheduledDaily 9 30)).
Proof.
  destruct (daily_time_is_scheduled sample_env 1 "Daily at 09:30" true "09" "30"
              9 30 first_session
              {| subscribed_coins := ["bitcoin"]; update_interval := 60;
                 is_subscribed := true; job_id := Some "user_1" |})
    as (He & _ & _ & Hs & _ & _ & Hh);
    [reflexivity|vm_compute; reflexivity|reflexivity|vm_compute; reflexivity
    |vm_compute; reflexivity|lia|lia|vm_compute; reflexivity|].
  cbv zeta. split; [exact He|]. split; [exact Hs|exact Hh].
Defined.

(** ** Buttons and the callbacks that serve them *)

Lemma coin_data_parse id :
  string_all (other_than "_") id = true →
  index (PyStr.split "_" ("coin_" +:+ id)) 1 = Ok id.
Proof.
  intros Hid. unfold PyStr.split.
  change ("coin_" +:+ id) with ("coin" +:+ String "_"%char id).
  rewrite split_go_char by done. by rewrite split_go_one_piece.
Qed.

Lemma interval_data_parse (n : Z) :
  (p ← index (PyStr.split "_" ("interval_" +:+ pretty n)) 1; int_of p) = Ok n.
Proof.
  unfold PyStr.split.
  change ("interval_" +:+ pretty n) with ("interval" +:+ String "_"%char (pretty n)).
  rewrite split_go_char by done.
  rewrite split_go_one_piece by (by apply pretty_Z_all).
  simpl. apply int_of_pretty.
Qed.

Lemma interval_data_routing (n : Z) :
  PyStr.startswith "coin_" ("interval_" +:+ pretty n) = false
  ∧ ¬ ("interval_" +:+ pretty n
       ∈ ["coins_done"; "select_all"; "clear_all"; "selected_count"])
  ∧ PyStr.startswith "interval_" ("interval_" +:+ pretty n) = true.
Proof.
  split; [done|]. split.
  - rewrite !not_elem_of_cons. repeat split; try done. apply not_elem_of_nil.
  - unfold PyStr.startswith. rewrite !string_cons_app, string_nil_app. simpl.
    apply prefix_empty.
Qed.

Section Buttons.
Context {num : Type} `{NumFormat num}.
Implicit Types (e : env num) (s : state).

Lemma interval_button_dispatch e uid (n : Z) s :
  dispatch e (CallbackQuery uid ("interval_" +:+ pretty n)) s
  = interval_selection_callback e uid ("interval_" +:+ pretty n) s.
Proof.
  destruct (interval_data_routing n) as (Hc & Ha & Hi).
  unfold dispatch. rewrite Hc, bool_decide_eq_false_2, Hi by done. done.
Qed.

(** Every entry of [INTERVAL_OPTIONS] has its own row in
    [create_interval_keyboard], and pressing its button activates that
    interval for a subscriber with a record: nothing is raised, the record
    and the job carry the minutes of the entry, and the confirmation shows
    its label. *)
Theorem interval_button_activates e uid name n s user :
  (name, n) ∈ INTERVAL_OPTIONS →
  user_data s !! uid = Some user →
  [ {| text := name; callback_data := "interval_" +:+ pretty n |} ]
    ∈ create_interval_keyboard
  ∧ let o := dispatch e (CallbackQuery uid ("interval_" +:+ pretty n)) s in
    exc o = None
    ∧ user_data (st o) !! uid
      = Some {| subscribed_coins := subscribed_coins user; update_interval := n;
                is_subscribed := true; job_id := Some (interval_job_id uid) |}
    ∧ jobs (st o) !! interval_job_id uid
      = Some {| func := SendPriceUpdate; trig := IntervalTrigger n; args := [uid] |}
    ∧ schedule_spec (st o) uid = Some (IntervalTrigger n)
    ∧ fsm (st o) !! uid = None
    ∧ (store_inv s → live_timers uid (st o) = 1%nat)
    ∧ head (evs o)
      = Some (EditText uid
                (SubscriptionActivated (List.length (subscribed_coins user)) name)).
Proof.
  intros Hopt Hu. split.
  { unfold create_interval_keyboard. apply elem_of_app. left.
    apply list_elem_of_fmap. by exists (name, n). }
  intros o.
  assert (interval_name n = Ok name) as Hname.
  { unfold INTERVAL_OPTIONS in Hopt.
    repeat (apply elem_of_cons in Hopt as [[= -> ->]|Hopt]; [done|]).
    by apply elem_of_nil in Hopt. }
  unfold o. rewrite interval_button_dispatch.
  unfold interval_selection_callback.
  rewrite interval_data_parse, Hu, Hname.
  destruct (install_job_result uid (set_interval n user) (interval_job_id uid)
              (IntervalTrigger n) (with_users (insert uid (set_interval n user)) s))
    as (Hrec & Hjob & Hspec).
  simpl.
  split; [done|]. split; [done|]. split; [done|]. split; [done|].
  split; [by rewrite lookup_delete_eq|]. split; [|done].
  intros Hinv.
  apply (install_one_timer (with_users (insert uid (set_interval n user)) s));
    [by eapply store_inv_record|by simpl; rewrite lookup_insert_eq|by left].
Qed.


(** Every button of the coin rows is the button of an entry of
    [CRYPTO_OPTIONS], and the callback data it carries is parsed back to the
    id of that entry: pressing it toggles that asset in the watchlist of the
    sender, creating the record if there is none. *)
Theorem coin_button_toggles_its_coin e selected_coins uid s b :
  b ∈ List.concat (coin_rows selected_coins CRYPTO_OPTIONS) →
  ∃ name coin_id,
    (name, coin_id) ∈ CRYPTO_OPTIONS
    ∧ b = coin_button selected_coins (name, coin_id)
    ∧ let user := default default_record (user_data s !! uid) in
      let coins := toggle coin_id (subscribed_coins user) in
      dispatch e (CallbackQuery uid (callback_data b)) s
      = done (with_users (insert uid (set_coins coins user)) (ensure_user uid s))
             [EditMarkup uid coins; Answer uid None].
Proof.
  destruct (coin_rows_built selected_coins CRYPTO_OPTIONS) as [-> _].
  intros ([name coin_id] & -> & Hopt)%list_elem_of_fmap.
  exists name, coin_id. split; [done|]. split; [done|].
  assert (string_all (other_than "_") coin_id = true) as Hid.
  { unfold CRYPTO_OPTIONS in Hopt.
    repeat (apply elem_of_cons in Hopt as [[= -> ->]|Hopt]; [done|]).
    by apply elem_of_nil in Hopt. }
  cbv zeta. change (callback_data (coin_button selected_coins (name, coin_id)))
    with ("coin_" +:+ coin_id).
  unfold dispatch, PyStr.startswith.
  assert (String.prefix "coin_" ("coin_" +:+ coin_id) = true) as ->.
  { rewrite !string_cons_app, string_nil_app. simpl. apply prefix_empty. }
  unfold coin_selection_callback. rewrite coin_data_parse by done.
  by rewrite ensure_user_lookup.
Qed.

End Buttons.

(** Subscriber 1 presses "1 hour". *)
Lemma interval_button_activates_witness :
  let o := dispatch sample_env (CallbackQuery 1 "interval_60") first_session in
  exc o = None ∧ schedule_spec (st o) 1 = Some (IntervalTrigger 60).
Proof.
  destruct (interval_button_activates sample_env 1 "1 hour" 60 first_session
              {| subscribed_coins := ["bitcoin"]; update_interval := 60;
                 is_subscribed := true; job_id := Some "user_1" |})
    as (_ & He & _ & _ & Hs & _);
    [apply (bool_decide_unpack _); vm_compute; reflexivity
    |vm_compute; reflexivity|].
  cbv zeta. split; [exact He|exact Hs].
Defined.


(** The Ethereum button of the keyboard shown to subscriber 1. *)
Lemma coin_button_toggles_its_coin_witness :
  ∃ name coin_id,
    (name, coin_id) ∈ CRYPTO_OPTIONS
    ∧ coin_button ["bitcoin"] ("Ethereum", "ethereum")
      = coin_button ["bitcoin"] (name, coin_id).
Proof.
  destruct (coin_button_toggles_its_coin sample_env ["bitcoin"] 1 first_session
              (coin_button ["bitcoin"] ("Ethereum", "ethereum")))
    as (name & coin_id & Hin & Hb & _).
  - vm_compute. right. left.
  - exists name, coin_id. split; [exact Hin|exact Hb].
Defined.

(** ** Watchlists along a run *)

Lemma remove_first_sublist x l : sublist (remove_first x l) l.
Proof.
  induction l as [|y l IH]; simpl; [done|].
  case_bool_decide; [by apply sublist_cons|by apply sublist_skip].
Qed.

Lemma elem_of_remove_first x y l :
  NoDup l → y ∈ remove_first x l ↔ y ≠ x ∧ y ∈ l.
Proof.
  induction l as [|z l IH]; simpl; intros Hnd.
  { split; [by intros ?%elem_of_nil|by intros [_ ?%elem_of_nil]]. }
  apply NoDup_cons in Hnd as [Hz Hnd]. case_bool_decide as Hzx.
  - subst z. rewrite elem_of_cons. split.
    + intros Hy. split; [by intros ->|by right].
    + by intros [Hne [->|Hy]].
  - rewrite !elem_of_cons, IH by done. split.
    + intros [->|[Hne Hy]]; [split; [done|by left]|split; [done|by right]].
    + intros [Hne [->|Hy]]; [by left|by right].
Qed.

Lemma toggle_NoDup coin_id coins : NoDup coins → NoDup (toggle coin_id coins).
Proof.
  intros Hnd. unfold toggle. case_bool_decide as Hin.
  - eapply sublist_NoDup; eauto using remove_first_sublist.
  - apply NoDup_app. split; [done|]. split; [|apply NoDup_singleton].
    intros x Hx ->%list_elem_of_singleton. done.
Qed.

(** On a watchlist without repetition, [toggle] (the [remove] or [append]
    of [coin_selection_callback]) flips the membership of the asset, leaves
    the membership of every other asset alone, and repeats nothing. *)
Theorem toggle_flips_membership coin_id coins :
  NoDup coins →
  NoDup (toggle coin_id coins)
  ∧ (coin_id ∈ toggle coin_id coins ↔ coin_id ∉ coins)
  ∧ (∀ other, other ≠ coin_id → other ∈ toggle coin_id coins ↔ other ∈ coins).
Proof.
  intros Hnd. split; [by apply toggle_NoDup|].
  unfold toggle. case_bool_decide as Hin.
  - split.
    + rewrite elem_of_remove_first by done. split; [by intros [? _]|done].
    + intros other Hne. rewrite elem_of_remove_first by done. tauto.
  - split.
    + split; [done|]. intros _. apply elem_of_app. right. by apply list_elem_of_singleton.
    + intros other Hne. rewrite elem_of_app, list_elem_of_singleton. tauto.
Qed.

(** Bitcoin is toggled out of a watchlist of two. *)
Lemma toggle_flips_membership_witness :
  NoDup (toggle "bitcoin" ["bitcoin"; "ethereum"])
  ∧ ("bitcoin" ∈ toggle "bitcoin" ["bitcoin"; "ethereum"]
     ↔ "bitcoin" ∉ ["bitcoin"; "ethereum"]).
Proof.
  destruct (toggle_flips_membership "bitcoin" ["bitcoin"; "ethereum"])
    as (Hnd & Hin & _); [apply (bool_decide_unpack _); vm_compute; reflexivity|].
  split; [exact Hnd|exact Hin].
Defined.

Section Watchlists.
Context {num : Type} `{NumFormat num}.
Context (P : list string → Prop) (A : string → Prop).
Hypothesis P_nil : P [].
Hypothesis P_all : P (CRYPTO_OPTIONS.*2).
Hypothesis P_toggle : ∀ c l, A c → P l → P (toggle c l).
Implicit Types (e : env num) (s : state).

Lemma watchlists_ext s s' :
  user_data s' = user_data s → watchlists P s → watchlists P s'.
Proof. intros Hu Hs uid r. rewrite Hu. apply Hs. Qed.

Lemma watchlists_insert s uid r :
  P (subscribed_coins r) → watchlists P s →
  watchlists P (with_users (insert uid r) s).
Proof.
  intros Hr Hs u q. simpl. destruct (decide (u = uid)) as [->|Hne].
  - rewrite lookup_insert_eq. by intros [= <-].
  - rewrite lookup_insert_ne by done. apply Hs.
Qed.

Lemma watchlists_ensure_user uid s :
  watchlists P s → watchlists P (ensure_user uid s)
  ∧ P (subscribed_coins (default default_record (user_data s !! uid))).
Proof.
  intros Hs. unfold ensure_user.
  destruct (user_data s !! uid) as [r|] eqn:Hu; simpl.
  - split; [done|by eapply Hs].
  - split; [by apply watchlists_insert|done].
Qed.

Lemma watchlists_install uid user id t s :
  P (subscribed_coins user) → watchlists P s →
  watchlists P (install_job uid user id t s).
Proof.
  intros Hr Hs. unfold install_job. apply watchlists_insert; [done|].
  eapply watchlists_ext; [|done]. simpl. by destruct (truthy (job_id user)).
Qed.

Lemma subscribe_command_watchlists uid s :
  watchlists P s → watchlists P (st (subscribe_command uid s)).
Proof.
  intros Hs. unfold subscribe_command.
  destruct (watchlists_ensure_user uid s Hs) as [Hs' _].
  case_match; simpl; [done|by eapply watchlists_ext].
Qed.

Lemma coin_selection_callback_watchlists uid data s :
  (∀ c, index (PyStr.split "_" data) 1 = Ok c → A c) →
  watchlists P s → watchlists P (st (coin_selection_callback uid data s)).
Proof.
  intros Hc Hs. unfold coin_selection_callback.
  destruct (index _ 1) as [coin|err]; simpl; [|done].
  destruct (watchlists_ensure_user uid s Hs) as [Hs' Hr].
  rewrite ensure_user_lookup. simpl.
  apply watchlists_insert; [|done]. simpl. apply P_toggle; [by apply Hc|done].
Qed.

Lemma coin_action_callback_watchlists uid data s :
  watchlists P s → watchlists P (st (coin_action_callback uid data s)).
Proof.
  intros Hs. unfold coin_action_callback.
  destruct (user_data s !! uid) as [user|] eqn:Hu; simpl; [|done].
  repeat case_bool_decide; simpl; try (by apply watchlists_insert); [|done].
  destruct (subscribed_coins user); simpl; [done|by eapply watchlists_ext].
Qed.

Lemma interval_selection_callback_watchlists e uid data s :
  watchlists P s → watchlists P (st (interval_selection_callback e uid data s)).
Proof.
  intros Hs. unfold interval_selection_callback.
  destruct (_ ≫= _) as [n|err]; simpl; [|done].
  destruct (user_data s !! uid) as [user|] eqn:Hu; simpl; [|done].
  assert (watchlists P
            (install_job uid (set_interval n user) (interval_job_id uid)
               (IntervalTrigger n)
               (with_users (insert uid (set_interval n user)) s))) as Hinst.
  { apply watchlists_install; [exact (Hs _ _ Hu)|].
    apply watchlists_insert; [exact (Hs _ _ Hu)|done]. }
  destruct (interval_name n); simpl; [by eapply watchlists_ext|done].
Qed.

Lemma process_custom_time_watchlists e uid text s :
  watchlists P s → watchlists P (st (process_custom_time e uid text s)).
Proof.
  intros Hs. unfold process_custom_time.
  assert (watchlists P (st (custom_time_try e uid (PyStr.lower text) s))) as Htry.
  { unfold custom_time_try.
    destruct (parse_custom_time _) as [[minutes|hour minute]|err]; simpl; [| |done].
    - case_bool_decide; simpl; [done|].
      destruct (user_data s !! uid) as [user|] eqn:Hu; simpl; [|done].
      eapply watchlists_ext; [done|].
      apply watchlists_install; [exact (Hs _ _ Hu)|].
      apply watchlists_insert; [exact (Hs _ _ Hu)|done].
    - destruct (negb _); simpl; [done|].
      destruct (user_data s !! uid) as [user|] eqn:Hu; simpl; [|done].
      eapply watchlists_ext; [done|].
      apply watchlists_install; [exact (Hs _ _ Hu)|done]. }
  by destruct (exc _).
Qed.

Lemma unsubscribe_command_watchlists uid s :
  watchlists P s → watchlists P (st (unsubscribe_command uid s)).
Proof.
  intros Hs. unfold unsubscribe_command.
  destruct (user_data s !! uid) as [user|] eqn:Hu; simpl; [|done].
  destruct (negb _); simpl; [done|].
  apply watchlists_insert; [exact (Hs _ _ Hu)|].
  eapply watchlists_ext; [|done]. by destruct (truthy (job_id user)).
Qed.

Lemma cancel_command_watchlists uid s :
  watchlists P s → watchlists P (st (cancel_command uid s)).
Proof.
  intros Hs. unfold cancel_command. case_match; simpl; [|done].
  by eapply watchlists_ext.
Qed.

Lemma custom_time_callback_watchlists uid s :
  watchlists P s → watchlists P (st (custom_time_callback uid s)).
Proof. intros Hs. by eapply watchlists_ext. Qed.

Lemma dispatch_watchlists e u s :
  (∀ c, toggled_coin (Update u) = Some c → A c) →
  watchlists P s → watchlists P (st (dispatch e u s)).
Proof.
  intros Hc Hs. destruct u as [uid text|uid data]; simpl.
  - repeat case_match;
      rewrite ?settings_command_st, ?prices_command_st, ?list_command_st;
      auto using subscribe_command_watchlists, process_custom_time_watchlists,
        unsubscribe_command_watchlists, cancel_command_watchlists.
  - simpl in Hc. destruct (PyStr.startswith "coin_" data) eqn:Hcoin.
    + apply coin_selection_callback_watchlists; [|done].
      intros c Hidx. apply Hc. by rewrite Hidx.
    + repeat case_match;
        auto using coin_action_callback_watchlists,
          interval_selection_callback_watchlists, custom_time_callback_watchlists.
Qed.

Lemma fire_watchlists e id s : watchlists P s → watchlists P (st (fire e id s)).
Proof.
  intros Hs. unfold fire.
  repeat case_match; simpl; rewrite ?send_price_update_st; try done.
Qed.

Lemma run_watchlists e trace s :
  Forall (λ x, ∀ c, toggled_coin x = Some c → A c) trace →
  watchlists P s → watchlists P (run e trace s).
Proof.
  intros Htrace. revert s.
  induction Htrace as [|x trace Hx _ IH]; intros s Hs; [done|].
  rewrite run_cons. apply IH. destruct x as [u|id]; simpl.
  - by apply dispatch_watchlists.
  - by apply fire_watchlists.
Qed.

Lemma run_bot_watchlists (file : option (gmap Z user_record)) save_id :
  (∀ m uid r, file = Some m → m !! uid = Some r → P (subscribed_coins r)) →
  watchlists P (run_bot save_id (fresh_process file)).
Proof.
  intros Hfile uid r. rewrite run_bot_user_data. simpl.
  rewrite (right_id ∅ (∪)). destruct file as [m|]; simpl.
  - by apply Hfile.
  - by rewrite lookup_empty.
Qed.

End Watchlists.

(** ** What the invariants give *)




Lemma all_options_distinct : NoDup (CRYPTO_OPTIONS.*2).
Proof. apply (bool_decide_unpack _). by vm_compute. Qed.


Section Consequences.
Context {num : Type} `{NumFormat num}.
Implicit Types (e : env num) (s : state).

(** If no watchlist of the file repeats an asset, no watchlist ever does,
    whatever the updates and firings. *)
Theorem watchlists_never_repeat e (file : option (gmap Z user_record))
    save_id (trace : list step) :
  (∀ m uid r, file = Some m → m !! uid = Some r → NoDup (subscribed_coins r)) →
  let s := run e trace (run_bot save_id (fresh_process file)) in
  ∀ uid r, user_data s !! uid = Some r → NoDup (subscribed_coins r).
Proof.
  intros Hfile s.
  apply (run_watchlists (@NoDup string) (λ _, True)).
  - constructor.
  - apply all_options_distinct.
  - intros c l _ Hl. by apply toggle_NoDup.
  - by apply Forall_forall.
  - by apply (run_bot_watchlists (@NoDup string)).
Qed.




(** [send_price_update] changes no state, lets no exception escape, and
    sends the subscriber at most one message. *)
Theorem send_price_update_never_raises e uid s :
  let o := send_price_update e uid s in
  st o = s ∧ exc o = None ∧ (List.length (user_visible (evs o)) ≤ 1)%nat.
Proof.
  unfold send_price_update.
  destruct (user_data s !! uid) as [user|]; [|simpl; split_and!; [done..|lia]].
  destruct (subscribed_coins user) as [|c coins]; [simpl; split_and!; [done..|lia]|].
  pose proof (get_crypto_prices_logs_only e (c :: coins)) as Hlogs.
  destruct (get_crypto_prices e (c :: coins)) as [prices logged]. simpl in Hlogs.
  case_bool_decide; [|destruct (price_update_message _ _ _)]; simpl;
    rewrite user_visible_app, Hlogs; simpl; split_and!; done || lia.
Qed.

(** After [/unsubscribe], a second [/unsubscribe] changes nothing and
    answers that there is no subscription. *)
Theorem unsubscribe_twice_changes_nothing uid s :
  let s1 := st (unsubscribe_command uid s) in
  unsubscribe_command uid s1 = done s1 [SendMessage uid NotSubscribed].
Proof.
  unfold unsubscribe_command.
  destruct (user_data s !! uid) as [user|] eqn:Hu; simpl; [|by rewrite Hu].
  destruct (is_subscribed user) eqn:Hsub; simpl.
  - by rewrite lookup_insert_eq.
  - by rewrite Hu, Hsub.
Qed.

(** For a sender without a record the activation paths and the keyboard
    actions change nothing: a custom schedule is answered with the error
    message, the interval callback and the action callback raise and leave
    the state as it was. *)
Theorem activation_without_record_changes_nothing e uid s :
  user_data s !! uid = None →
  (∀ text, ∃ err, process_custom_time e uid text s
                  = done s [SendMessage uid (CustomTimeError err)])
  ∧ (∀ data, ∃ err, interval_selection_callback e uid data s = crashed s [] err)
  ∧ (∀ data, coin_action_callback uid data s = crashed s [] KeyError).
Proof.
  intros Hu. split; [|split].
  - intros text. unfold process_custom_time, custom_time_try.
    destruct (parse_custom_time _) as [[minutes|hour minute]|err]; simpl.
    + case_bool_decide; simpl; [by eexists|]. rewrite Hu. by eexists.
    + destruct (negb _); simpl; [by eexists|]. rewrite Hu. by eexists.
    + by eexists.
  - intros data. unfold interval_selection_callback.
    destruct (_ ≫= _) as [n|err]; [|by eexists]. rewrite Hu. by eexists.
  - intros data. unfold coin_action_callback. by rewrite Hu.
Qed.



End Consequences.

(** The first session, beside a file with one inactive subscriber. *)
Lemma watchlists_never_repeat_witness :
  NoDup (subscribed_coins
           {| subscribed_coins := ["bitcoin"]; update_interval := 60;
              is_subscribed := true; job_id := Some "user_1" |}).
Proof.
  apply (watchlists_never_repeat sample_env (Some inactive_file) "7f3a"
           first_trace) with (uid := 1).
  - intros m uid r [= <-] Hr. unfold inactive_file in Hr.
    apply lookup_singleton_Some in Hr as [_ <-].
    apply (bool_decide_unpack _). vm_compute. reflexivity.
  - vm_compute. reflexivity.
Defined.


(** A process that has just started holds no record of subscriber 1. *)
Lemma activation_without_record_changes_nothing_witness :
  coin_action_callback 1 "coins_done" (fresh_process None)
  = crashed (fresh_process None) [] KeyError.
Proof.
  destruct (activation_without_record_changes_nothing sample_env 1
              (fresh_process None)) as (_ & _ & Hc); [reflexivity|].
  apply Hc.
Defined.



(** ** The subscription flow *)

Lemma known_coin_no_underscore c :
  known_coin c → string_all (other_than "_") c = true.
Proof.
  unfold known_coin. intros Hc.
  repeat (apply elem_of_cons in Hc as [->|Hc]; [done|]).
  by apply elem_of_nil in Hc.
Qed.

Section Flow.
Context {num : Type} `{NumFormat num}.
Implicit Types (e : env num) (s : state).

Lemma coin_press e uid coin_id s :
  string_all (other_than "_") coin_id = true →
  let user := default default_record (user_data s !! uid) in
  let coins := toggle coin_id (subscribed_coins user) in
  dispatch e (CallbackQuery uid ("coin_" +:+ coin_id)) s
  = done (with_users (insert uid (set_coins coins user)) (ensure_user uid s))
         [EditMarkup uid coins; Answer uid None].
Proof.
  intros Hid. cbv zeta. unfold dispatch, PyStr.startswith.
  assert (String.prefix "coin_" ("coin_" +:+ coin_id) = true) as ->.
  { rewrite !string_cons_app, string_nil_app. simpl. apply prefix_empty. }
  unfold coin_selection_callback. rewrite coin_data_parse by done.
  by rewrite ensure_user_lookup.
Qed.

Lemma coin_presses_append e uid coins :
  ∀ s r,
    user_data s !! uid = Some r →
    NoDup (subscribed_coins r ++ coins) → Forall known_coin coins →
    let s' := run e (coin_presses uid coins) s in
    user_data s' !! uid = Some (set_coins (subscribed_coins r ++ coins) r)
    ∧ jobs s' = jobs s.
Proof.
  induction coins as [|c coins IH]; intros s r Hr Hnd Hknown.
  { simpl. rewrite app_nil_r. split; [|done]. rewrite Hr. by destruct r. }
  apply Forall_cons in Hknown as [Hc Hknown].
  unfold coin_presses. rewrite fmap_cons, run_cons. unfold run_step.
  rewrite coin_press by (by apply known_coin_no_underscore).
  rewrite Hr. simpl.
  assert (toggle c (subscribed_coins r) = (subscribed_coins r ++ [c])%list) as Htoggle.
  { unfold toggle. rewrite bool_decide_eq_false_2; [done|].
    apply NoDup_app in Hnd as (_ & Hdisj & _). intros Hin.
    apply (Hdisj c Hin). by left. }
  rewrite Htoggle.
  edestruct (IH (with_users (insert uid (set_coins (subscribed_coins r ++ [c])%list r))
                   (ensure_user uid s))
                (set_coins (subscribed_coins r ++ [c])%list r)) as [Hrec Hjobs].
  - simpl. by rewrite lookup_insert_eq.
  - simpl. by rewrite <-app_assoc.
  - done.
  - unfold coin_presses in Hrec, Hjobs. simpl in Hrec. rewrite Hrec, Hjobs.
    split; [by rewrite <-app_assoc|].
    simpl. unfold ensure_user. by rewrite Hr.
Qed.

(** The whole flow for a new subscriber: [/subscribe], a press on the
    button of each of a list of distinct known assets, "Done", an interval
    button.  The record holds those assets in the order pressed and the
    interval, the job under the interval handle carries the interval, and
    the conversation state is cleared. *)
Theorem subscription_flow_installs_schedule e uid coins name n s :
  user_data s !! uid = None →
  coins ≠ [] → NoDup coins → Forall known_coin coins →
  (name, n) ∈ INTERVAL_OPTIONS →
  let s' := run e (subscription_flow uid coins n) s in
  user_data s' !! uid
    = Some {| subscribed_coins := coins; update_interval := n;
              is_subscribed := true; job_id := Some (interval_job_id uid) |}
  ∧ jobs s' !! interval_job_id uid
    = Some {| func := SendPriceUpdate; trig := IntervalTrigger n; args := [uid] |}
  ∧ schedule_spec s' uid = Some (IntervalTrigger n)
  ∧ fsm s' !! uid = None
  ∧ (store_inv s → live_timers uid s' = 1%nat).
Proof.
  intros Hnew Hne Hnd Hknown Hopt s'.
  set (s0 := st (dispatch e (Message uid "/subscribe") s)).
  set (s1 := run e (coin_presses uid coins) s0).
  set (s2 := st (dispatch e (CallbackQuery uid "coins_done") s1)).
  assert (s' = st (dispatch e (CallbackQuery uid ("interval_" +:+ pretty n)) s2))
    as Hs'.
  { unfold s', subscription_flow, run. rewrite !foldl_app. done. }
  assert (s0 = with_fsm (insert uid choosing_coins)
                 (with_users (insert uid default_record) s)) as Hs0.
  { unfold s0.
    change (dispatch e (Message uid "/subscribe") s) with (subscribe_command uid s).
    unfold subscribe_command, ensure_user. rewrite Hnew. simpl.
    by rewrite lookup_insert_eq. }
  destruct (coin_presses_append e uid coins s0 default_record) as [Hrec Hjobs];
    [by rewrite Hs0; simpl; rewrite lookup_insert_eq|done|done|].
  fold s1 in Hrec, Hjobs. simpl in Hrec.
  assert (s2 = with_fsm (insert uid choosing_interval) s1) as Hs2.
  { unfold s2.
    change (dispatch e (CallbackQuery uid "coins_done") s1)
      with (coin_action_callback uid "coins_done" s1).
    unfold coin_action_callback. rewrite Hrec. simpl. by destruct coins. }
  assert (interval_name n = Ok name) as Hname.
  { unfold INTERVAL_OPTIONS in Hopt.
    repeat (apply elem_of_cons in Hopt as [[= -> ->]|Hopt]; [done|]).
    by apply elem_of_nil in Hopt. }
  assert (user_data s2 !! uid = Some (set_coins coins default_record)) as Hrec2.
  { by rewrite Hs2. }
  assert (store_inv s → store_inv s2) as Hkeep.
  { intros Hinv.
    apply (run_store_inv e
             ([Update (Message uid "/subscribe")] ++ coin_presses uid coins ++
              [Update (CallbackQuery uid "coins_done")])%list s) in Hinv.
    unfold run in Hinv. by rewrite !foldl_app in Hinv. }
  rewrite Hs'. clear Hs'.
  rewrite interval_button_dispatch.
  unfold interval_selection_callback.
  rewrite interval_data_parse, Hrec2, Hname.
  set (user := set_interval n (set_coins coins default_record)).
  destruct (install_job_result uid user (interval_job_id uid) (IntervalTrigger n)
              (with_users (insert uid user) s2))
    as (Hrec' & Hjob & Hspec).
  simpl.
  split; [done|]. split; [done|]. split; [done|].
  split; [by rewrite lookup_delete_eq|].
  intros Hinv.
  apply (install_one_timer (with_users (insert uid user) s2));
    [|by simpl; rewrite lookup_insert_eq|by left].
  eapply store_inv_record; [exact Hrec2|done|done|by apply Hkeep].
Qed.

End Flow.

(** A new subscriber picks Bitcoin and Ethereum and the 30-minute button. *)
Lemma subscription_flow_installs_schedule_witness :
  let s' := run sample_env (subscription_flow 1 ["bitcoin"; "ethereum"] 30)
              (fresh_process None) in
  user_data s' !! 1
    = Some {| subscribed_coins := ["bitcoin"; "ethereum"]; update_interval := 30;
              is_subscribed := true; job_id := Some (interval_job_id 1) |}
  ∧ schedule_spec s' 1 = Some (IntervalTrigger 30).
Proof.
  destruct (subscription_flow_installs_schedule sample_env 1
              ["bitcoin"; "ethereum"] "30 minutes" 30 (fresh_process None))
    as (Hr & _ & Hs & _).
  - reflexivity.
  - discriminate.
  - apply (bool_decide_unpack _). vm_compute. reflexivity.
  - repeat (constructor; [apply (bool_decide_unpack _); vm_compute; reflexivity|]).
    constructor.
  - apply (bool_decide_unpack _). vm_compute. reflexivity.
  - cbv zeta. split; [exact Hr|exact Hs].
Defined.

(** ** The keys of the stored file *)

Lemma foldl_insert_list_to_map (l : list (Z * user_record)) (acc : gmap Z user_record) :
  foldl (λ a kv, <[kv.1 := kv.2]> a) acc l = list_to_map (reverse l) ∪ acc.
Proof.
  revert acc. induction l as [|[k v] l IH]; intros acc; simpl.
  { by rewrite (left_id ∅ (∪)). }
  rewrite IH, reverse_cons, list_to_map_app. simpl.
  rewrite insert_empty, <-(assoc_L (∪)). f_equal.
  by rewrite insert_union_singleton_l.
Qed.

Lemma load_items_pretty (l : list (Z * user_record)) (acc : gmap Z user_record) :
  foldl load_item (Ok acc)
    ((λ kv : Z * user_record, (pretty kv.1, kv.2)) <$> l)
  = Ok (foldl (λ a kv, <[kv.1 := kv.2]> a) acc l).
Proof.
  revert acc. induction l as [|[k v] l IH]; intros acc; [done|].
  simpl. unfold load_item at 1. simpl. rewrite int_of_pretty. simpl. apply IH.
Qed.

(** The keys survive the file: reading the items [json.dump] writes for a
    store, with [int] on every key, gives the store back. *)
Theorem saved_ids_are_read_back (m : gmap Z user_record) :
  load_items (json_items m) = Ok m.
Proof.
  unfold load_items, json_items. rewrite load_items_pretty.
  rewrite foldl_insert_list_to_map, (right_id ∅ (∪)). f_equal.
  rewrite <-(list_to_map_to_list m) at 2.
  symmetry. apply list_to_map_proper.
  - apply NoDup_fst_map_to_list.
  - symmetry. apply reverse_Permutation.
Qed.




(** ** Confirmations *)

Lemma plain_confirmed s ev : plain ev = true → confirmed s ev.
Proof. destruct ev as [c m|c m| | |]; try done; by destruct m. Qed.

Lemma first_key_is_key {B} `{EqDecision B} (table : list (string * B)) (v : B) k :
  index (fst <$> filter (λ kv, kv.2 = v) table) 0 = Ok k → (k, v) ∈ table.
Proof.
  induction table as [|[k' w] table IH]; [done|].
  destruct (decide (w = v)) as [->|Hne].
  - rewrite filter_cons_True by done. intros [= ->]. by left.
  - rewrite filter_cons_False by done. intros Hk. right. by apply IH.
Qed.

Section Confirmations.
Context {num : Type} `{NumFormat num}.
Implicit Types (e : env num) (s : state).

Lemma get_crypto_prices_plain e coins :
  Forall (λ ev, plain ev = true) (get_crypto_prices e coins).2.
Proof. unfold get_crypto_prices. repeat case_match; repeat constructor. Qed.

Lemma send_price_update_plain e uid s :
  Forall (λ ev, plain ev = true) (evs (send_price_update e uid s)).
Proof.
  unfold send_price_update.
  destruct (user_data s !! uid) as [user|]; [|constructor].
  destruct (subscribed_coins user) as [|c coins]; [constructor|].
  pose proof (get_crypto_prices_plain e (c :: coins)) as Hlogs.
  destruct (get_crypto_prices e (c :: coins)) as [prices logged].
  repeat case_match; simpl; apply Forall_app; split; try done;
    by repeat constructor.
Qed.

Lemma prices_command_plain e uid s :
  Forall (λ ev, plain ev = true) (evs (prices_command e uid s)).
Proof.
  unfold prices_command.
  pose proof (get_crypto_prices_plain e (coins_to_check uid s)) as Hlogs.
  destruct (get_crypto_prices e (coins_to_check uid s)) as [prices logged].
  repeat case_match; simpl; try done; apply Forall_app; split; try done;
    by repeat constructor.
Qed.

Lemma plain_all_confirmed s l :
  Forall (λ ev, plain ev = true) l → Forall (confirmed s) l.
Proof. intros Hl. eapply Forall_impl; [done|]. intros ev. apply plain_confirmed. Qed.

Lemma interval_selection_callback_confirmed e uid data s :
  store_inv s →
  let o := interval_selection_callback e uid data s in
  Forall (confirmed (st o)) (evs o).
Proof.
  intros Hinv. unfold interval_selection_callback.
  destruct (_ ≫= _) as [n|err]; simpl; [|constructor].
  destruct (user_data s !! uid) as [user|] eqn:Hu; simpl; [|constructor].
  destruct (interval_name n) as [name|err] eqn:Hname; simpl; [|constructor].
  constructor; [|apply plain_all_confirmed, send_price_update_plain].
  exists n. split; [by apply first_key_is_key|].
  destruct (install_job_result uid (set_interval n user) (interval_job_id uid)
              (IntervalTrigger n) (with_users (insert uid (set_interval n user)) s))
    as (_ & _ & Hspec).
  split; [exact Hspec|].
  apply (install_one_timer (with_users (insert uid (set_interval n user)) s));
    [by eapply store_inv_record|by simpl; rewrite lookup_insert_eq|by left].
Qed.

Lemma process_custom_time_confirmed e uid text s :
  store_inv s →
  let o := process_custom_time e uid text s in
  Forall (confirmed (st o)) (evs o).
Proof.
  intros Hinv. unfold process_custom_time, custom_time_try.
  destruct (parse_custom_time _) as [[minutes|hour minute]|err]; simpl;
    [| |by repeat constructor].
  - case_bool_decide; simpl; [by repeat constructor|].
    destruct (user_data s !! uid) as [user|] eqn:Hu; simpl; [|by repeat constructor].
    constructor; [|apply plain_all_confirmed, send_price_update_plain].
    destruct (install_job_result uid (set_interval minutes user)
                (interval_job_id uid) (IntervalTrigger minutes)
                (with_users (insert uid (set_interval minutes user)) s))
      as (_ & _ & Hspec).
    split; [lia|]. split; [exact Hspec|].
    apply (install_one_timer
             (with_users (insert uid (set_interval minutes user)) s));
      [by eapply store_inv_record|by simpl; rewrite lookup_insert_eq|by left].
  - case_bool_decide as Hrange; simpl; [|by repeat constructor].
    destruct (user_data s !! uid) as [user|] eqn:Hu; simpl; [|by repeat constructor].
    constructor; [|apply plain_all_confirmed, send_price_update_plain].
    destruct (install_job_result uid user (daily_job_id uid)
                (CronTrigger hour minute) s) as (_ & _ & Hspec).
    split; [lia|]. split; [lia|]. split; [exact Hspec|].
    apply install_one_timer; [done|done|by right].
Qed.

Lemma unsubscribe_command_confirmed uid s :
  store_inv s →
  let o := unsubscribe_command uid s in
  Forall (confirmed (st o)) (evs o).
Proof.
  intros Hinv. unfold unsubscribe_command.
  destruct (user_data s !! uid) as [user|] eqn:Hu; simpl; [|by repeat constructor].
  destruct (negb _); simpl; [by repeat constructor|].
  constructor; [|constructor]. split; [|by apply unsubscribe_no_timer].
  unfold schedule_spec. simpl. by rewrite lookup_insert_eq.
Qed.

Lemma dispatch_confirmed e u s :
  store_inv s →
  let o := dispatch e u s in Forall (confirmed (st o)) (evs o).
Proof.
  intros Hinv. destruct u as [uid text|uid data]; simpl.
  - repeat case_match;
      auto using process_custom_time_confirmed, unsubscribe_command_confirmed;
      try (apply plain_all_confirmed, prices_command_plain);
      try (by repeat constructor).
    + unfold subscribe_command. case_match; by repeat constructor.
    + unfold settings_command. repeat case_match; by repeat constructor.
    + unfold list_command. repeat case_match; by repeat constructor.
    + unfold cancel_command. repeat case_match; by repeat constructor.
  - repeat case_match;
      auto using interval_selection_callback_confirmed;
      try (by repeat constructor).
    + unfold coin_selection_callback. repeat case_match; by repeat constructor.
    + unfold coin_action_callback.
      repeat first [case_match|case_bool_decide]; by repeat constructor.
Qed.

Lemma fire_confirmed e id s :
  let o := fire e id s in Forall (confirmed (st o)) (evs o).
Proof.
  unfold fire. repeat case_match; simpl; try (by repeat constructor).
  apply plain_all_confirmed, send_price_update_plain.
Qed.

(** Whatever the history of steps and restarts, the confirmations the bot
    sends are true of the state it leaves: after "Subscription Activated"
    with a label, after "every N minutes" and after "daily at HH:MM" the
    subscriber has exactly one timer and it carries the schedule named;
    after the message of unsubscription the subscriber has no timer. *)
Theorem confirmations_are_true e (history : list life_step) (x : step) :
  let s := live e history (fresh_process None) in
  let o := run_step e x s in
  Forall (confirmed (st o)) (evs o).
Proof.
  intros s o.
  pose proof (live_store_inv e history) as Hinv.
  destruct x as [u|id]; [by apply dispatch_confirmed|apply fire_confirmed].
Qed.

End Confirmations.
